(** * mojahrvatska.com.hr: the two data-preparation scripts

    A shallow embedding of [scripts/generate-search-index.mjs] and
    [scripts/fetch-wiki-data.mjs].

    - JavaScript numbers are IEEE 754 binary64 values: Rocq's primitive
      [float], with the comparisons and products of the source written with
      [PrimFloat] operations.
    - JavaScript strings are [string]s holding the UTF-8 bytes of the text.
      The only string operations of the scripts are concatenation and
      [String.prototype.replace] with a string pattern, and a match of a
      well-formed UTF-8 pattern in well-formed UTF-8 text starts and ends at
      character boundaries, so both agree with their UTF-16 originals.
    - An object literal is an association list in key order; an object used
      as a dictionary ([byName], [wikidataMap], [enrichment]) is a [gmap]
      over its own properties.  Where the key comes from the network (the
      labels of the Wikidata rows) the members inherited from
      [Object.prototype] are modelled too; the names and slugs of the data
      tables are taken to be neither such members nor one of the six
      property names that a row labelled '__proto__' makes the loop set on
      [Object.prototype].
    - [async] code is written in a state monad over the log of network
      events, the network being an oracle that answers from that log. *)

From Stdlib Require Import ZArith String Ascii List Floats.
From stdpp Require Import gmap strings list pretty.

Set Warnings "-inexact-float".
Local Open Scope string_scope.

(** ** JavaScript values *)

Module Js.

(** The values the scripts put in the objects they serialise.  [Undefined]
    stands for both empty values, [undefined] and [null]: the scripts copy
    them and test them with [!= null] and [!x], and never tell one from the
    other. *)
Inductive value : Type :=
| Undefined
| Str (s : string)
| Num (x : float).

(** An object literal [{k1: v1, ..., kn: vn}]: its properties in order. *)
Definition object : Type := list (string * value).

Definition keys (o : object) : list string := map fst o.

Definition get (k : string) (o : object) : value :=
  match find (fun kv => String.eqb (fst kv) k) o with
  | Some kv => snd kv
  | None => Undefined
  end.

(** [x || null] and [if (x)] on an optional string: the empty string is
    falsy, like [undefined] and [null]. *)
Definition truthy_str (o : option string) : option string :=
  match o with
  | Some "" => None
  | _ => o
  end.

(** [if (x)] on a value that is an object or [undefined]/[null]. *)
Definition isSome {A} (o : option A) : bool :=
  match o with
  | Some _ => true
  | None => false
  end.

(** Truthiness of a number: [0], [-0] and [NaN] are falsy. *)
Definition truthy_num (x : float) : bool :=
  negb (PrimFloat.eqb x 0 || PrimFloat.is_nan x).

Fixpoint drop (n : nat) (s : string) : string :=
  match n, s with
  | S n', String _ s' => drop n' s'
  | _, _ => s
  end.

(** [s.replace(pat, rep)] for a string [pat]: only the first occurrence is
    replaced ([rep] holds no [$] in the scripts). *)
Fixpoint replace (pat rep s : string) : string :=
  if String.prefix pat s then rep ++ drop (String.length pat) s
  else match s with
       | EmptyString => EmptyString
       | String c s' => String c (replace pat rep s')
       end.

(** [Number.prototype.toFixed]: the decimal [n / 10^digits] nearest to [x],
    the larger [n] on a tie, computed on the exact value [m * 2^e] of the
    double.  From [10^21] on JavaScript prints in exponent notation; the
    census figures are far below, and that branch prints the integer in
    full here. *)
Definition pad_zeros (width : nat) (s : string) : string :=
  String.concat "" (repeat "0" (width - String.length s)) ++ s.

Definition fixed_digits (n : N) (digits : nat) : string :=
  let s := pad_zeros (S digits) (pretty n) in
  let k := (String.length s - digits)%nat in
  match digits with
  | O => s
  | _ => String.substring 0 k s ++ "." ++ drop k s
  end.

Definition round_scaled (m : positive) (e : Z) (digits : nat) : N :=
  let p := (Z.pos m * 10 ^ Z.of_nat digits)%Z in
  Z.to_N (if (0 <=? e)%Z then p * 2 ^ e
          else (2 * p + 2 ^ (- e)) / 2 ^ (1 - e))%Z.

Definition toFixed (x : float) (digits : nat) : string :=
  match Prim2SF x with
  | S754_nan => "NaN"
  | S754_infinity s => if s then "-Infinity" else "Infinity"
  | S754_zero _ => fixed_digits 0 digits
  | S754_finite s m e =>
      (if s then "-" else "") ++ fixed_digits (round_scaled m e digits) digits
  end.

End Js.

(** ** The data tables *)

Module Row.

(** A county identifier: a number or a string, compared with [===]. *)
Inductive ident : Type :=
| IdNum (n : Z)
| IdStr (s : string).

Definition ident_eqb (a b : ident) : bool :=
  match a, b with
  | IdNum n, IdNum m => (n =? m)%Z
  | IdStr s, IdStr t => String.eqb s t
  | _, _ => false
  end.

(** [if (location.county_id)]: [0] and the empty string are falsy. *)
Definition ident_truthy (a : ident) : bool :=
  match a with
  | IdNum n => negb (n =? 0)%Z
  | IdStr s => negb (String.eqb s "")
  end.

(** Modelled from the spec: the "typed data tables" [src/data/zupanije.ts],
    [gradovi.ts] and [opcine.ts] are not among the sources.  A row carries
    the fields the two scripts read, with the types the reads need: text,
    numbers, an identifier compared with [===], and [None] for the fields the
    scripts test for absence: a field that is missing or [null]. *)
Record t : Type := mk {
  id : ident;
  name : string;
  slug : string;
  type : option string;
  county_id : option ident;
  county_name : string;
  population_2021 : float;
  change_pct : float;
  density : float;
  avg_age : float;
  age_65_plus_pct : float;
  age_0_14_pct : float;
  education_university_pct : option float;
  male_pct : float;
  female_pct : float;
}.

Definition js_opt_str (o : option string) : Js.value :=
  match o with Some s => Js.Str s | None => Js.Undefined end.

Definition js_opt_num (o : option float) : Js.value :=
  match o with Some x => Js.Num x | None => Js.Undefined end.

End Row.

(** ** generate-search-index.mjs *)

Module SearchIndex.

Import Row.

(** The three arrow functions of [searchIndex]. *)
Definition zupanijaEntry (z : Row.t) : Js.object :=
  [ ("name", Js.Str (name z));
    ("slug", Js.Str (slug z));
    ("type", Js.Str "zupanija");
    ("county", Js.Str "");
    ("pop", Js.Num (population_2021 z)) ].

Definition gradEntry (g : Row.t) : Js.object :=
  [ ("name", Js.Str (name g));
    ("slug", Js.Str (slug g));
    ("type", Js.Str "grad");
    ("county", Js.Str (county_name g));
    ("pop", Js.Num (population_2021 g)) ].

Definition opcinaEntry (o : Row.t) : Js.object :=
  [ ("name", Js.Str (name o));
    ("slug", Js.Str (slug o));
    ("type", Js.Str "opcina");
    ("county", Js.Str (county_name o));
    ("pop", Js.Num (population_2021 o)) ].

Definition searchIndex (zupanije gradovi opcine : list Row.t) : list Js.object :=
  map zupanijaEntry zupanije ++ map gradEntry gradovi ++ map opcinaEntry opcine.

(** The arrow function shared by both halves of [compareData]. *)
Definition compareEntry (r : Row.t) : Js.object :=
  [ ("name", Js.Str (name r));
    ("slug", Js.Str (slug r));
    ("type", js_opt_str (type r));
    ("county_name", Js.Str (county_name r));
    ("population_2021", Js.Num (population_2021 r));
    ("change_pct", Js.Num (change_pct r));
    ("density", Js.Num (density r));
    ("avg_age", Js.Num (avg_age r));
    ("education_university_pct", js_opt_num (education_university_pct r));
    ("male_pct", Js.Num (male_pct r));
    ("female_pct", Js.Num (female_pct r)) ].

Definition compareData (gradovi opcine : list Row.t) : list Js.object :=
  map compareEntry gradovi ++ map compareEntry opcine.

(** What one run writes: [public/search-index.json] and
    [public/locations-compare.json], from the three parsed tables. *)
Record output : Type := {
  search_index_json : list Js.object;
  locations_compare_json : list Js.object;
}.

Definition run (zupanije gradovi opcine : list Row.t) : output :=
  {| search_index_json := searchIndex zupanije gradovi opcine;
     locations_compare_json := compareData gradovi opcine |}.

(** What a search entry and a comparison entry have in common: name, slug,
    population and county name, under the keys of each index. *)
Definition searchKey (e : Js.object) : Js.value * Js.value * Js.value * Js.value :=
  (Js.get "name" e, Js.get "slug" e, Js.get "pop" e, Js.get "county" e).

Definition compareKey (e : Js.object) : Js.value * Js.value * Js.value * Js.value :=
  (Js.get "name" e, Js.get "slug" e, Js.get "population_2021" e, Js.get "county_name" e).

End SearchIndex.

(** ** fetch-wiki-data.mjs: the locations *)

Module Location.

Import Row.

(** A location is a table row with its [type]; the [wikiTitle] property the
    script adds is never read (titles come from [getWikiTitle]). *)
Definition with_type (ty : string) (r : Row.t) : Row.t :=
  Row.mk (id r) (name r) (slug r) (Some ty) (county_id r) (county_name r)
    (population_2021 r) (change_pct r) (density r) (avg_age r)
    (age_65_plus_pct r) (age_0_14_pct r) (education_university_pct r)
    (male_pct r) (female_pct r).

(** [allLocations]: counties get [type: 'zupanija']; cities and
    municipalities keep the [type] of their row. *)
Definition allLocations (zupanije gradovi opcine : list Row.t) : list Row.t :=
  map (with_type "zupanija") zupanije ++ map (fun g => g) gradovi ++ map (fun o => o) opcine.

(** [type === s]. *)
Definition type_is (ty : option string) (s : string) : bool :=
  match ty with
  | Some x => String.eqb x s
  | None => false
  end.

(** [getWikiTitle]: [titleMap] has the one key 'Grad Zagreb'. *)
Definition getWikiTitle (location : Row.t) : string :=
  let name := name location in
  let type := type location in
  if type_is type "zupanija" then name
  else if String.eqb name "Grad Zagreb" then "Zagreb"
  else name.

End Location.

(** ** fetch-wiki-data.mjs: generateConclusions *)

Module Conclusions.

Import Row Location.

Local Open Scope float_scope.

Definition nationalPop : float := 3871833.
Definition nationalDensity : float := 68.4.
Definition nationalAvgAge : float := 43.7.
Definition nationalUniversityPct : float := 18.4.
Definition nationalChange : float := -9.64.
Definition nationalAge65Plus : float := 22.4.
Definition nationalAge014 : float := 14.2.

(** The constants as template literals print them ([Number::toString]). *)
Definition nationalDensity_str : string := "68.4".
Definition nationalAvgAge_str : string := "43.7".
Definition nationalUniversityPct_str : string := "18.4".
Definition nationalAge014_str : string := "14.2".

(** [a > b] and [a < b] on numbers: false when either side is [NaN]. *)
Definition gt (a b : float) : bool := PrimFloat.ltb b a.
Definition lt (a b : float) : bool := PrimFloat.ltb a b.

Local Open Scope string_scope.
Local Abbreviation toFixed := Js.toFixed.

(** 1. Population change verdict. *)
Definition changeVerdict (change : float) : list string :=
  if gt change 5 then
    ["Stanovništvo bilježi značajan rast od " ++ toFixed change 1 ++ "% u desetljeću 2011.–2021., što je znatno iznad nacionalnog trenda (" ++ toFixed nationalChange 1 ++ "%)."]
  else if gt change 0 then
    ["Stanovništvo bilježi blagi rast od " ++ toFixed change 1 ++ "% u desetljeću 2011.–2021., suprotno od nacionalnog trenda pada."]
  else if gt change (-5) then
    ["Stanovništvo bilježi umjereni pad od " ++ toFixed change 1 ++ "% u razdoblju 2011.–2021., što je blaže od nacionalnog prosjeka (" ++ toFixed nationalChange 1 ++ "%)."]
  else if gt change (-15) then
    ["Stanovništvo bilježi značajan pad od " ++ toFixed change 1 ++ "% u desetljeću 2011.–2021."]
  else
    ["Stanovništvo bilježi drastičan pad od " ++ toFixed change 1 ++ "% u razdoblju 2011.–2021., što ukazuje na snažne demografske izazove."].

(** 2. Density comparison. *)
Definition densityComparison (type : option string) (density : float) : list string :=
  if negb (type_is type "zupanija") then
    if gt density (nationalDensity * 5)%float then
      ["Gustoća naseljenosti (" ++ toFixed density 0 ++ "/km²) znatno je iznad nacionalnog prosjeka (" ++ nationalDensity_str ++ "/km²)."]
    else if gt density (nationalDensity * 1.5)%float then
      ["Gustoća naseljenosti (" ++ toFixed density 0 ++ "/km²) iznad je nacionalnog prosjeka (" ++ nationalDensity_str ++ "/km²)."]
    else if lt density (nationalDensity * 0.5)%float then
      ["Gustoća naseljenosti (" ++ toFixed density 0 ++ "/km²) ispod je nacionalnog prosjeka (" ++ nationalDensity_str ++ "/km²), što ukazuje na ruralni karakter."]
    else []
  else [].

(** 3. Age structure assessment. *)
Definition ageStructure (avgAge : float) : list string :=
  if gt avgAge 48 then
    ["Prosječna starost od " ++ toFixed avgAge 1 ++ " godina značajno je iznad nacionalnog prosjeka (" ++ nationalAvgAge_str ++ "), što ukazuje na izrazito staro stanovništvo."]
  else if gt avgAge (nationalAvgAge + 2)%float then
    ["Prosječna starost od " ++ toFixed avgAge 1 ++ " godina iznad je nacionalnog prosjeka (" ++ nationalAvgAge_str ++ ")."]
  else if lt avgAge (nationalAvgAge - 3)%float then
    ["Prosječna starost od " ++ toFixed avgAge 1 ++ " godina ispod je nacionalnog prosjeka (" ++ nationalAvgAge_str ++ "), što ukazuje na mlađe stanovništvo."]
  else [].

(** 4. Youth vs elderly ratio: two independent tests. *)
Definition youthShare (age014 : float) : list string :=
  if gt age014 16 then
    ["Udio mladih (0–14 godina) od " ++ toFixed age014 1 ++ "% iznad je nacionalnog prosjeka (" ++ nationalAge014_str ++ "%), što upućuje na povoljniju demografsku sliku."]
  else [].

Definition elderlyShare (age65 : float) : list string :=
  if gt age65 28 then
    ["Udio stanovništva starijih od 65 godina (" ++ toFixed age65 1 ++ "%) znatno je iznad prosjeka, što predstavlja demografski izazov."]
  else [].

(** 5. Education: skipped when the field is [null] or absent. *)
Definition education (uni : option float) : list string :=
  match uni with
  | Some uniPct =>
      if gt uniPct 25 then
        ["Udio visokoobrazovanih (" ++ toFixed uniPct 1 ++ "%) znatno je iznad nacionalnog prosjeka (" ++ nationalUniversityPct_str ++ "%)."]
      else if lt uniPct 10 then
        ["Udio visokoobrazovanih (" ++ toFixed uniPct 1 ++ "%) ispod je nacionalnog prosjeka (" ++ nationalUniversityPct_str ++ "%)."]
      else []
  | None => []
  end.

(** [zupanije.find(z => z.id === location.county_id)]. *)
Definition findCounty (zupanije : list Row.t) (cid : ident) : option Row.t :=
  find (fun z => ident_eqb (id z) cid) zupanije.

(** 6. County-level comparison: the threshold is 30% of the population of
    the county the table holds for [county_id]. *)
Definition countyComparison (location : Row.t) (type : option string)
    (zupanije : list Row.t) : list string :=
  let pop := population_2021 location in
  match county_id location with
  | Some cid =>
      if negb (type_is type "zupanija") && ident_truthy cid then
        match findCounty zupanije cid with
        | Some county =>
            if gt pop (population_2021 county * 0.3)%float then
              [name location ++ " je najveće urbano središte "
               ++ Js.replace "Grad Zagreb" "Grada Zagreba"
                    (Js.replace " županija" "e županije" (name county))
               ++ ", s " ++ toFixed (pop / population_2021 county * 100)%float 0
               ++ "% županijskog stanovništva."]
            else []
        | None => []
        end
      else []
  | None => []
  end.

(** 7. Population size context. *)
Definition sizeContext (location : Row.t) (type : option string) : list string :=
  let pop := population_2021 location in
  (if type_is type "opcina" then
     if lt pop 500 then
       ["S manje od 500 stanovnika, ovo je jedna od najmanjih općina u Hrvatskoj."]
     else if gt pop 10000 then
       ["S više od 10.000 stanovnika, ovo je jedna od većih općina u Hrvatskoj."]
     else []
   else [])
  ++
  (if type_is type "grad" then
     if gt pop 100000 then
       [name location ++ " je jedan od najvećih gradova u Hrvatskoj."]
     else if lt pop 3000 then
       ["S manje od 3.000 stanovnika, " ++ name location ++ " je među najmanji gradovima u Hrvatskoj."]
     else []
   else []).

(** The sentences pushed, in order, before the final [slice(0, 5)]. *)
Definition pushed (location : Row.t) (type : option string)
    (zupanije gradovi opcine : list Row.t) : list string :=
  changeVerdict (change_pct location)
  ++ densityComparison type (density location)
  ++ ageStructure (avg_age location)
  ++ youthShare (age_0_14_pct location)
  ++ elderlyShare (age_65_plus_pct location)
  ++ education (education_university_pct location)
  ++ countyComparison location type zupanije
  ++ sizeContext location type.

Definition generateConclusions (location : Row.t) (type : option string)
    (zupanije gradovi opcine : list Row.t) : list string :=
  take 5 (pushed location type zupanije gradovi opcine).

(** *** What the sentences depend on *)

(** The county the sixth rule compares with: the first row of the county
    table whose [id] is the location's (truthy) [county_id]. *)
Definition countyOf (location : Row.t) (zupanije : list Row.t) : option Row.t :=
  match county_id location with
  | Some cid => if ident_truthy cid then findCounty zupanije cid else None
  | None => None
  end.

(** The fields of a location that [generateConclusions] reads, its
    [county_id] apart. *)
Record same_statistics (a b : Row.t) : Prop := {
  same_name : name a = name b;
  same_population : population_2021 a = population_2021 b;
  same_change : change_pct a = change_pct b;
  same_density : density a = density b;
  same_avg_age : avg_age a = avg_age b;
  same_age_65 : age_65_plus_pct a = age_65_plus_pct b;
  same_age_014 : age_0_14_pct a = age_0_14_pct b;
  same_education : education_university_pct a = education_university_pct b;
}.

(** Two county lookups that find nothing, or counties of the same name and
    population. *)
Definition same_county (c c' : option Row.t) : Prop :=
  match c, c' with
  | Some x, Some y => name x = name y /\ population_2021 x = population_2021 y
  | None, None => True
  | _, _ => False
  end.

End Conclusions.

(** ** fetch-wiki-data.mjs: the bracket scan of parseTS *)

Module ParseTS.

(** The [for] loop of [parseTS], on the text from [start] on ([start] is
    where the regular expression found the opening bracket).  [depth] is the
    loop variable; the result is [end - start] when the loop breaks, and
    [None] when it runs to the end of the text, [end] staying [start]. *)
Fixpoint scan (depth : Z) (rest : string) : option nat :=
  match rest with
  | EmptyString => None
  | String c rest' =>
      let depth := if Ascii.eqb c "[" then (depth + 1)%Z else depth in
      if Ascii.eqb c "]" then
        let depth := (depth - 1)%Z in
        if (depth =? 0)%Z then Some 1 else S <$> scan depth rest'
      else S <$> scan depth rest'
  end.

(** [arrayStr = src.slice(start, end)]. *)
Definition arrayStr (rest : string) : string :=
  match scan 0 rest with
  | Some n => String.substring 0 n rest
  | None => EmptyString
  end.

(** Text whose square brackets match. *)
Inductive balanced : string -> Prop :=
| balanced_empty : balanced EmptyString
| balanced_char c s :
    Ascii.eqb c "[" = false -> Ascii.eqb c "]" = false ->
    balanced s -> balanced (String c s)
| balanced_nested a b :
    balanced a -> balanced b -> balanced ("[" ++ a ++ "]" ++ b).

End ParseTS.

(** ** fetch-wiki-data.mjs: Wikidata rows and entries *)

Module Binding.

(** One row of [data.results.bindings]; each field is [row.x?.value]. *)
Record t : Type := mk {
  itemLabel : option string;
  coatOfArms : option string;
  photo : option string;
  postalCode : option string;
  elevation : option string;
  website : option string;
  licensePlate : option string;
  sisterCityLabel : option string;
}.

End Binding.

Module WdEntry.

(** A value of [byName]. *)
Record t : Type := mk {
  coatOfArms : option string;
  photo : option string;
  postalCode : option string;
  elevation : option float;
  officialWebsite : option string;
  licensePlate : option string;
  sisterCities : list string;
}.

Definition empty : t := mk None None None None None None [].

End WdEntry.

(** ** fetch-wiki-data.mjs: the network *)

Module Net.

Local Open Scope list_scope.

Inductive request : Type :=
| SparqlReq (label : string)
| WikipediaReq (title : string).

#[export] Instance request_eq_dec : EqDecision request.
Proof. solve_decision. Defined.

Definition is_wikipedia (r : request) : bool :=
  match r with WikipediaReq _ => true | SparqlReq _ => false end.

(** What the script does to the outside world, in order: a [fetch] call,
    the resumption of the code that awaits it, a [sleep]. *)
Inductive event : Type :=
| Start (r : request)
| Settle (r : request)
| Sleep (ms : nat).

(** How a [fetch] ends: the promise rejects, or a response arrives with its
    [ok] flag and the value of [res.json()] ([None] when that rejects or
    the document lacks the shape the code dereferences). *)
Inductive http (B : Type) : Type :=
| NetworkError
| Response (ok : bool) (json : option B).
Arguments NetworkError {B}.
Arguments Response {B} ok json.

(** The page summary document: [data.extract], [data.thumbnail?.source]. *)
Record summaryDoc : Type := {
  extract : option string;
  thumbnail_source : option string;
}.

(** The outside world: it answers a request from everything that happened
    before it. *)
Record network : Type := {
  sparql : list event -> string -> http (list Binding.t);
  wikipedia : list event -> string -> http summaryDoc;
}.

(** Completion of a piece of code: a value, or a thrown exception. *)
Inductive result (A : Type) : Type :=
| Ok (a : A)
| Throw.
Arguments Ok {A} a.
Arguments Throw {A}.

(** Code that talks to the network: from the log so far to its completion
    and the extended log. *)
Definition M (A : Type) : Type := list event -> result A * list event.

Definition ret {A} (a : A) : M A := fun log => (Ok a, log).

Definition bind {A B} (m : M A) (k : A -> M B) : M B :=
  fun log =>
    match m log with
    | (Ok a, log') => k a log'
    | (Throw, log') => (Throw, log')
    end.

Definition throw {A} : M A := fun log => (Throw, log).

(** A call that does not touch the network: it completes as it does. *)
Definition complete {A} (r : result A) : M A := fun log => (r, log).

(** [try { m } catch { handler }]. *)
Definition try_catch {A} (m : M A) (handler : M A) : M A :=
  fun log =>
    match m log with
    | (Ok a, log') => (Ok a, log')
    | (Throw, log') => handler log'
    end.

Definition emit (e : event) : M unit := fun log => (Ok tt, log ++ [e]).

(** [await sleep(ms)]. *)
Definition sleep (ms : nat) : M unit := emit (Sleep ms).

(** A pending promise: the request it waits for and how it will settle. *)
Record promise (A : Type) : Type := {
  pending : request;
  settles : result A;
}.
Arguments pending {A} p.
Arguments settles {A} p.

Definition is_throw {A} (r : result A) : bool :=
  match r with Throw => true | Ok _ => false end.

Fixpoint values {A} (ps : list (promise A)) : list A :=
  match ps with
  | [] => []
  | p :: ps' => match settles p with
                | Ok a => a :: values ps'
                | Throw => values ps'
                end
  end.

(** [await Promise.all(ps)]: the values in array order once every promise
    has fulfilled, the exception as soon as one rejects.  In which order
    simultaneous requests settle is the network's business; the log keeps
    the settlements the awaiting code is resumed on, in array order. *)
Definition await_all {A} (ps : list (promise A)) : M (list A) :=
  fun log =>
    match find (fun p => is_throw (settles p)) ps with
    | Some p => (Throw, log ++ [Settle (pending p)])
    | None => (Ok (values ps), log ++ map (fun p => Settle (pending p)) ps)
    end.

(** The requests in flight after a log, oldest first. *)
Fixpoint remove_first (r : request) (l : list request) : list request :=
  match l with
  | [] => []
  | x :: l' => if decide (x = r) then l' else x :: remove_first r l'
  end.

Fixpoint in_flight_from (open : list request) (log : list event) : list request :=
  match log with
  | [] => open
  | Start r :: log' => in_flight_from (open ++ [r]) log'
  | Settle r :: log' => in_flight_from (remove_first r open) log'
  | Sleep _ :: log' => in_flight_from open log'
  end.

Definition in_flight (log : list event) : list request := in_flight_from [] log.

End Net.

(** ** fetch-wiki-data.mjs: processWikidataResults *)

Section Wikidata.

(** The builtin [parseFloat], applied to the elevation literal. *)
Variable parseFloat : string -> float.

(** [if (row.x?.value && !entry.x) entry.x = row.x.value]. *)
Definition firstTruthy (cur new : option string) : option string :=
  match Js.truthy_str new, Js.truthy_str cur with
  | Some v, None => Some v
  | _, _ => cur
  end.

(** The same for the elevation: a stored [0] or [NaN] is falsy and is
    overwritten by a later row. *)
Definition firstElevation (cur : option float) (new : option string) : option float :=
  match Js.truthy_str new with
  | Some v =>
      match cur with
      | Some x => if Js.truthy_num x then cur else Some (parseFloat v)
      | None => Some (parseFloat v)
      end
  | None => cur
  end.

Definition addSisterCity (cur : list string) (new : option string) : list string :=
  match Js.truthy_str new with
  | Some sc => if bool_decide (sc ∈ cur) then cur else cur ++ [sc]
  | None => cur
  end.

(** The seven statements that a row applies to an entry of [byName]. *)
Definition mergeRow (entry : WdEntry.t) (row : Binding.t) : WdEntry.t :=
  WdEntry.mk
    (firstTruthy (WdEntry.coatOfArms entry) (Binding.coatOfArms row))
    (firstTruthy (WdEntry.photo entry) (Binding.photo row))
    (firstTruthy (WdEntry.postalCode entry) (Binding.postalCode row))
    (firstElevation (WdEntry.elevation entry) (Binding.elevation row))
    (firstTruthy (WdEntry.officialWebsite entry) (Binding.website row))
    (firstTruthy (WdEntry.licensePlate entry) (Binding.licensePlate row))
    (addSisterCity (WdEntry.sisterCities entry) (Binding.sisterCityLabel row)).

(** [byName] is a plain object, and [byName[name]] also finds what it
    inherits from [Object.prototype]: the twelve members every object has,
    and the six properties that the loop itself sets on [Object.prototype]
    when a row is labelled '__proto__'. *)
Definition builtinMember (name : string) : bool :=
  existsb (String.eqb name)
    [ "constructor"; "__defineGetter__"; "__defineSetter__"; "hasOwnProperty";
      "__lookupGetter__"; "__lookupSetter__"; "isPrototypeOf";
      "propertyIsEnumerable"; "toString"; "valueOf"; "__proto__";
      "toLocaleString" ].

(** The properties the loop may have set on [Object.prototype]. *)
Record prototype : Type := mkPrototype {
  proto_coatOfArms : option string;
  proto_photo : option string;
  proto_postalCode : option string;
  proto_elevation : option float;
  proto_officialWebsite : option string;
  proto_licensePlate : option string;
}.

Definition cleanPrototype : prototype := mkPrototype None None None None None None.

(** [!entry.elevation] on a stored value. *)
Definition numTruthy (cur : option float) : bool :=
  match cur with
  | Some x => Js.truthy_num x
  | None => false
  end.

(** [Object.prototype] holds a truthy value under [name]: then [byName[name]]
    is that string or number, unless [byName] has an entry of its own. *)
Definition inheritedValue (proto : prototype) (name : string) : bool :=
  if String.eqb name "coatOfArms" then Js.isSome (Js.truthy_str (proto_coatOfArms proto))
  else if String.eqb name "photo" then Js.isSome (Js.truthy_str (proto_photo proto))
  else if String.eqb name "postalCode" then Js.isSome (Js.truthy_str (proto_postalCode proto))
  else if String.eqb name "elevation" then numTruthy (proto_elevation proto)
  else if String.eqb name "officialWebsite" then
    Js.isSome (Js.truthy_str (proto_officialWebsite proto))
  else if String.eqb name "licensePlate" then
    Js.isSome (Js.truthy_str (proto_licensePlate proto))
  else false.

(** The six assignments of a row when [entry] is [Object.prototype]. *)
Definition mergePrototype (proto : prototype) (row : Binding.t) : prototype :=
  mkPrototype
    (firstTruthy (proto_coatOfArms proto) (Binding.coatOfArms row))
    (firstTruthy (proto_photo proto) (Binding.photo row))
    (firstTruthy (proto_postalCode proto) (Binding.postalCode row))
    (firstElevation (proto_elevation proto) (Binding.elevation row))
    (firstTruthy (proto_officialWebsite proto) (Binding.website row))
    (firstTruthy (proto_licensePlate proto) (Binding.licensePlate row)).

(** When [entry] is an inherited string or number, [entry.x] reads
    [Object.prototype.x], and the assignment [entry.x = ...], which module
    code runs in strict mode, throws.  It is reached for a variable the row
    has and [Object.prototype] lacks. *)
Definition assignsToPrimitive (proto : prototype) (row : Binding.t) : bool :=
  Js.isSome (Js.truthy_str (Binding.coatOfArms row))
    && negb (Js.isSome (Js.truthy_str (proto_coatOfArms proto)))
  || Js.isSome (Js.truthy_str (Binding.photo row))
    && negb (Js.isSome (Js.truthy_str (proto_photo proto)))
  || Js.isSome (Js.truthy_str (Binding.postalCode row))
    && negb (Js.isSome (Js.truthy_str (proto_postalCode proto)))
  || Js.isSome (Js.truthy_str (Binding.elevation row))
    && negb (numTruthy (proto_elevation proto))
  || Js.isSome (Js.truthy_str (Binding.website row))
    && negb (Js.isSome (Js.truthy_str (proto_officialWebsite proto)))
  || Js.isSome (Js.truthy_str (Binding.licensePlate row))
    && negb (Js.isSome (Js.truthy_str (proto_licensePlate proto))).

(** The body of the [for] loop of [processWikidataResults], on [byName] and
    on what the loop has set on [Object.prototype].

    - [byName] has an entry of its own under the label: the row is applied
      to it.
    - The label is '__proto__': [byName[name]] is [Object.prototype]; no
      entry is created and the assignments land on [Object.prototype].
    - The label is another member of [Object.prototype]: [byName[name]] is
      that function; no entry is created, and the assignments land on the
      function, where nothing reads them.
    - [Object.prototype] holds a truthy value under the label: [byName[name]]
      is that string or number; no entry is created.
    - Otherwise a new entry is created and the row applied to it.

    An inherited [entry] has no [sisterCities]: a row with a sister city
    then throws at [entry.sisterCities.includes]. *)
Definition processRow (st : gmap string WdEntry.t * prototype) (row : Binding.t)
    : Net.result (gmap string WdEntry.t * prototype) :=
  let (byName, proto) := st in
  match Js.truthy_str (Binding.itemLabel row) with
  | None => Net.Ok st
  | Some name =>
      match byName !! name with
      | Some entry => Net.Ok (<[name := mergeRow entry row]> byName, proto)
      | None =>
          let sister := Js.isSome (Js.truthy_str (Binding.sisterCityLabel row)) in
          if String.eqb name "__proto__" then
            if sister then Net.Throw else Net.Ok (byName, mergePrototype proto row)
          else if builtinMember name then
            if sister then Net.Throw else Net.Ok st
          else if inheritedValue proto name then
            if assignsToPrimitive proto row || sister then Net.Throw else Net.Ok st
          else Net.Ok (<[name := mergeRow WdEntry.empty row]> byName, proto)
      end
  end.

(** The [for] loop: an exception ends it. *)
Fixpoint processRows (st : gmap string WdEntry.t * prototype) (bindings : list Binding.t)
    : Net.result (gmap string WdEntry.t * prototype) :=
  match bindings with
  | [] => Net.Ok st
  | row :: rest =>
      match processRow st row with
      | Net.Ok st' => processRows st' rest
      | Net.Throw => Net.Throw
      end
  end.

Definition processWikidataResults (bindings : list Binding.t)
    : Net.result (gmap string WdEntry.t) :=
  match processRows (∅, cleanPrototype) bindings with
  | Net.Ok (byName, _) => Net.Ok byName
  | Net.Throw => Net.Throw
  end.

End Wikidata.

(** *** The entry of a label, stated on the rows *)

(** The row belongs to the label [k]: [row.itemLabel?.value] is [k]. *)
Definition labelled (k : string) (row : Binding.t) : bool :=
  match Js.truthy_str (Binding.itemLabel row) with
  | Some name => String.eqb name k
  | None => false
  end.

(** The non-empty values of one variable in the rows of a label, in row
    order. *)
Definition rowValues (field : Binding.t -> option string) (k : string)
    (bs : list Binding.t) : list string :=
  omap (fun row => if labelled k row then Js.truthy_str (field row) else None) bs.

(** Where the elevation ends up after a series of parsed literals: a stored
    number other than [0] and [NaN] stays; otherwise the first such number
    of the series, and failing that its last number. *)
Definition settledElevation (cur : option float) (parsed : list float) : option float :=
  if numTruthy cur then cur
  else match find Js.truthy_num parsed with
       | Some x => Some x
       | None => match last parsed with
                 | Some z => Some z
                 | None => cur
                 end
       end.

(** What the rows of a label make of an entry, one after the other. *)
Definition mergeRows (parseFloat : string -> float) (k : string)
    (entry : WdEntry.t) (bs : list Binding.t) : WdEntry.t :=
  foldl (fun e row => if labelled k row then mergeRow parseFloat e row else e) entry bs.

(** The names under which [byName[name]] may find something inherited: the
    members of [Object.prototype] and the six properties the loop assigns. *)
Definition reserved (k : string) : bool :=
  builtinMember k
  || existsb (String.eqb k)
       [ "coatOfArms"; "photo"; "postalCode"; "elevation"; "officialWebsite";
         "licensePlate" ].

(** The entry [o] found under [k] is what the rows labelled [k] make it:
    it exists when there is such a row; each text field is the first
    non-empty value of its variable; the elevation is the first literal that
    parses to a number other than [0] and [NaN], else the last literal's
    number; the sister cities are the distinct non-empty labels. *)
Definition entryFromRows (parseFloat : string -> float) (k : string)
    (rows : list Binding.t) (o : option WdEntry.t) : Prop :=
  (is_Some o <-> exists row, row ∈ rows /\ Js.truthy_str (Binding.itemLabel row) = Some k)
  /\ o ≫= WdEntry.coatOfArms = head (rowValues Binding.coatOfArms k rows)
  /\ o ≫= WdEntry.photo = head (rowValues Binding.photo k rows)
  /\ o ≫= WdEntry.postalCode = head (rowValues Binding.postalCode k rows)
  /\ o ≫= WdEntry.officialWebsite = head (rowValues Binding.website k rows)
  /\ o ≫= WdEntry.licensePlate = head (rowValues Binding.licensePlate k rows)
  /\ o ≫= WdEntry.elevation
     = (let parsed := parseFloat <$> rowValues Binding.elevation k rows in
        match find Js.truthy_num parsed with
        | Some x => Some x
        | None => last parsed
        end)
  /\ (let cities := default [] (WdEntry.sisterCities <$> o) in
      NoDup cities
      /\ forall sc, sc ∈ cities <-> sc ∈ rowValues Binding.sisterCityLabel k rows).

(** No row carries a member of [Object.prototype] as its label. *)
Definition plainLabels (bs : list Binding.t) : Prop :=
  forall row, row ∈ bs ->
    forall name, Js.truthy_str (Binding.itemLabel row) = Some name ->
      builtinMember name = false.

Notation "'let*' x := m 'in' k" := (Net.bind m (fun x => k))
  (at level 10, x pattern, m at level 200, k at level 200, only parsing).
Notation "m ;;; k" := (Net.bind m (fun _ => k))
  (at level 100, k at level 200, right associativity, only parsing).

(** ** fetch-wiki-data.mjs: the enrichment *)

Module Entry.

(** A value of [enrichment].  While the loop runs [None] is [null]; after
    the clean-up pass [None] is a deleted key. *)
Record t : Type := mk {
  description : option string;
  thumbnail : option string;
  coatOfArms : option string;
  photo : option string;
  postalCode : option string;
  elevation : option float;
  officialWebsite : option string;
  licensePlate : option string;
  sisterCities : option (list string);
  conclusions : option (list string);
}.

(** The object literal that initialises [enrichment[slug]]. *)
Definition fresh : t :=
  mk None None None None None None None None (Some []) (Some []).

End Entry.

Module Summary.

(** What [fetchWikipediaSummary] resolves to when it is not [null]. *)
Record t : Type := mk {
  description : option string;
  thumbnail : option string;
}.

End Summary.

Module Enrich.

Import Net.
Local Open Scope list_scope.

(** The seven assignments made from a Wikidata match ([wd] and [wd2]). *)
Definition assignWikidata (wd : WdEntry.t) (e : Entry.t) : Entry.t :=
  Entry.mk (Entry.description e) (Entry.thumbnail e)
    (WdEntry.coatOfArms wd) (WdEntry.photo wd) (WdEntry.postalCode wd)
    (WdEntry.elevation wd) (WdEntry.officialWebsite wd) (WdEntry.licensePlate wd)
    (Some (WdEntry.sisterCities wd))
    (Entry.conclusions e).

(** The assignments made from a summary: both arms of the test on
    [wiki.thumbnail && !enrichment[slug].photo] store [wiki.thumbnail]. *)
Definition assignSummary (wiki : Summary.t) (e : Entry.t) : Entry.t :=
  Entry.mk (Summary.description wiki)
    (if Js.isSome (Js.truthy_str (Summary.thumbnail wiki))
        && negb (Js.isSome (Js.truthy_str (Entry.photo e)))
     then Summary.thumbnail wiki
     else Summary.thumbnail wiki)
    (Entry.coatOfArms e) (Entry.photo e) (Entry.postalCode e) (Entry.elevation e)
    (Entry.officialWebsite e) (Entry.licensePlate e) (Entry.sisterCities e)
    (Entry.conclusions e).

(** The assignments made from an alternate-title summary ([wiki2]). *)
Definition assignAlternate (wiki2 : Summary.t) (e : Entry.t) : Entry.t :=
  Entry.mk (Summary.description wiki2) (Summary.thumbnail wiki2)
    (Entry.coatOfArms e) (Entry.photo e) (Entry.postalCode e) (Entry.elevation e)
    (Entry.officialWebsite e) (Entry.licensePlate e) (Entry.sisterCities e)
    (Entry.conclusions e).

Definition assignConclusions (c : list string) (e : Entry.t) : Entry.t :=
  Entry.mk (Entry.description e) (Entry.thumbnail e)
    (Entry.coatOfArms e) (Entry.photo e) (Entry.postalCode e) (Entry.elevation e)
    (Entry.officialWebsite e) (Entry.licensePlate e) (Entry.sisterCities e)
    (Some c).

(** The clean-up pass on one entry: falsy fields are deleted; the
    elevation only when it is [null]. *)
Definition nonEmpty (l : option (list string)) : option (list string) :=
  match l with
  | Some [] => None
  | _ => l
  end.

Definition cleanUp (e : Entry.t) : Entry.t :=
  Entry.mk
    (Js.truthy_str (Entry.description e))
    (Js.truthy_str (Entry.thumbnail e))
    (Js.truthy_str (Entry.coatOfArms e))
    (Js.truthy_str (Entry.photo e))
    (Js.truthy_str (Entry.postalCode e))
    (Entry.elevation e)
    (Js.truthy_str (Entry.officialWebsite e))
    (Js.truthy_str (Entry.licensePlate e))
    (nonEmpty (Entry.sisterCities e))
    (nonEmpty (Entry.conclusions e)).

(** "Match Wikidata by name", then "also try matching county names". *)
Definition matchWikidata (wikidataMap : gmap string WdEntry.t) (loc : Row.t)
    (e : Entry.t) : Entry.t :=
  let wd := wikidataMap !! Row.name loc in
  let e := match wd with
           | Some w => assignWikidata w e
           | None => e
           end in
  if negb (Js.isSome wd) && Location.type_is (Row.type loc) "zupanija" then
    let shortName := Js.replace "Grad " "" (Js.replace " županija" "" (Row.name loc)) in
    let wd2 := match wikidataMap !! shortName with
               | Some w => Some w
               | None => wikidataMap !! Row.name loc
               end in
    match wd2 with
    | Some w => assignWikidata w e
    | None => e
    end
  else e.

(** The loop variables that outlive an iteration. *)
Record progress : Type := {
  enrichment : gmap string Entry.t;
  wikiCount : nat;
  wikiMiss : nat;
}.

Definition sparqlLabels : list string :=
  ["settlements"; "counties"; "cities"; "municipalities"].

Section WithNetwork.

Variable parseFloat : string -> float.
Variable net : network.

(** [fetchSparql(query, label)]: the call issues the request and returns
    a promise; the promise rejects on a network error, on [!res.ok], and
    when the body cannot be read. *)
Definition fetchSparql (label : string) : M (promise (list Binding.t)) :=
  fun log =>
    (Ok {| pending := SparqlReq label;
           settles := match sparql net log label with
                      | NetworkError => Throw
                      | Response ok json =>
                          if negb ok then Throw
                          else match json with
                               | Some bindings => Ok bindings
                               | None => Throw
                               end
                      end |},
     log ++ [Start (SparqlReq label)]).

(** [await fetch(url, ...)] for a summary page. *)
Definition fetchSummaryPage (title : string) : M (bool * option summaryDoc) :=
  fun log =>
    let log' := log ++ [Start (WikipediaReq title); Settle (WikipediaReq title)] in
    match wikipedia net log title with
    | NetworkError => (Throw, log')
    | Response ok json => (Ok (ok, json), log')
    end.

(** [await res.json()]. *)
Definition readJson {B} (json : option B) : M B :=
  match json with
  | Some data => ret data
  | None => throw
  end.

(** [await fetchWikipediaSummary(title)]. *)
Definition fetchWikipediaSummary (title : string) : M (option Summary.t) :=
  try_catch
    (let* (ok, json) := fetchSummaryPage title in
     if negb ok then ret None
     else
       let* data := readJson json in
       ret (Some (Summary.mk (Js.truthy_str (extract data))
                             (Js.truthy_str (thumbnail_source data)))))
    (ret None).

(** Step 1 of [main]: the four queries are issued, then awaited
    together. *)
Definition fetchWikidata : M (gmap string WdEntry.t) :=
  let* settlements := fetchSparql "settlements" in
  let* counties := fetchSparql "counties" in
  let* cities := fetchSparql "cities" in
  let* municipalities := fetchSparql "municipalities" in
  let* all := await_all [settlements; counties; cities; municipalities] in
  let allBindings := concat all in
  let* wikidataMap := complete (processWikidataResults parseFloat allBindings) in
  ret wikidataMap.

Section Loop.

Variable wikidataMap : gmap string WdEntry.t.
Variables zupanije gradovi opcine : list Row.t.

(** "Try alternate titles": one further request, then [sleep(50)]. *)
Definition tryAlternate (altTitle : string) (e : Entry.t) (count miss : nat)
    : M (Entry.t * nat * nat) :=
  let* wiki2 := fetchWikipediaSummary altTitle in
  let r := match wiki2 with
           | Some w => (assignAlternate w e, S count, pred miss)
           | None => (e, count, miss)
           end in
  sleep 50 ;;;
  ret r.

(** One iteration of the [for] loop of step 2.  [enrichment[slug]] is
    one object for the whole iteration: it is built in [e] and stored
    under [slug]. *)
Definition processLocation (st : progress) (loc : Row.t) : M progress :=
  let slug := Row.slug loc in
  let wikiTitle := Location.getWikiTitle loc in
  let e := Entry.fresh in
  let e := matchWikidata wikidataMap loc e in
  let* wiki := fetchWikipediaSummary wikiTitle in
  let* (e, count, miss) :=
    match wiki with
    | Some w => ret (assignSummary w e, S (wikiCount st), wikiMiss st)
    | None =>
        let miss := S (wikiMiss st) in
        let* (e, count, miss) :=
          if Location.type_is (Row.type loc) "opcina"
          then tryAlternate (Row.name loc ++ " (općina)")%string e (wikiCount st) miss
          else ret (e, wikiCount st, miss) in
        if Location.type_is (Row.type loc) "grad"
           && negb (Js.isSome (Js.truthy_str (Entry.description e)))
        then tryAlternate (Row.name loc ++ " (grad)")%string e count miss
        else ret (e, count, miss)
    end in
  let e := assignConclusions
             (Conclusions.generateConclusions loc (Row.type loc) zupanije gradovi opcine)
             e in
  sleep 100 ;;;
  ret {| enrichment := <[slug := e]> (enrichment st);
         wikiCount := count;
         wikiMiss := miss |}.

Fixpoint forEach (st : progress) (locs : list Row.t) : M progress :=
  match locs with
  | [] => ret st
  | loc :: rest =>
      let* st' := processLocation st loc in
      forEach st' rest
  end.

End Loop.

(** [let wikidataMap = {}; try { ... } catch { ... }]: on failure the map
    stays empty and the run goes on. *)
Definition wikidataStep : M (gmap string WdEntry.t) :=
  try_catch fetchWikidata (ret ∅).

(** [enrichment = {}], [wikiCount = 0], [wikiMiss = 0]. *)
Definition start : progress :=
  {| enrichment := ∅; wikiCount := 0; wikiMiss := 0 |}.

(** [main]: its value is the object written to
    [src/data/wiki-enrichment.json]; [Throw] is the "Fatal error" exit,
    which writes nothing. *)
Definition main (zupanije gradovi opcine : list Row.t) : M (gmap string Entry.t) :=
  let* wikidataMap := wikidataStep in
  let* st := forEach wikidataMap zupanije gradovi opcine start
               (Location.allLocations zupanije gradovi opcine) in
  ret (cleanUp <$> enrichment st).

End WithNetwork.

(** *** The two lookup chains, stated on their own *)

(** How a summary request resolves, by the way it ends. *)
Definition summaryOf (out : http summaryDoc) : option Summary.t :=
  match out with
  | Response true (Some data) =>
      Some (Summary.mk (Js.truthy_str (extract data))
                       (Js.truthy_str (thumbnail_source data)))
  | _ => None
  end.

(** The Wikidata chain: the exact name; for a county only, and only when
    that found nothing, the name without ' županija' and 'Grad '. *)
Definition wikidataMatch (wikidataMap : gmap string WdEntry.t) (loc : Row.t)
    : option WdEntry.t :=
  match wikidataMap !! Row.name loc with
  | Some w => Some w
  | None =>
      if Location.type_is (Row.type loc) "zupanija"
      then wikidataMap !! Js.replace "Grad " "" (Js.replace " županija" "" (Row.name loc))
      else None
  end.

(** The alternate Wikipedia title of a municipality or a city. *)
Definition alternateTitle (loc : Row.t) : option string :=
  if Location.type_is (Row.type loc) "opcina" then Some (Row.name loc ++ " (općina)")%string
  else if Location.type_is (Row.type loc) "grad" then Some (Row.name loc ++ " (grad)")%string
  else None.

Definition fetchEvents (title : string) : list event :=
  [Start (WikipediaReq title); Settle (WikipediaReq title)].

Section Chains.

Variable net : network.

(** The Wikipedia chain from a given log: the first summary, and when it is
    [null] the summary of the alternate title. *)
Definition firstSummary (log : list event) (loc : Row.t) : option Summary.t :=
  summaryOf (wikipedia net log (Location.getWikiTitle loc)).

Definition resolvedSummary (log : list event) (loc : Row.t) : option Summary.t :=
  match firstSummary log loc with
  | Some w => Some w
  | None =>
      match alternateTitle loc with
      | Some alt =>
          summaryOf (wikipedia net (log ++ fetchEvents (Location.getWikiTitle loc)) alt)
      | None => None
      end
  end.

(** The titles requested for a location, in order. *)
Definition titlesTried (log : list event) (loc : Row.t) : list string :=
  Location.getWikiTitle loc ::
  match firstSummary log loc with
  | Some _ => []
  | None =>
      match alternateTitle loc with
      | Some alt => [alt]
      | None => []
      end
  end.

(** Everything one iteration adds to the log. *)
Definition locationEvents (log : list event) (loc : Row.t) : list event :=
  fetchEvents (Location.getWikiTitle loc)
  ++ match firstSummary log loc with
     | Some _ => []
     | None =>
         match alternateTitle loc with
         | Some alt => fetchEvents alt ++ [Sleep 50]
         | None => []
         end
     end
  ++ [Sleep 100].

(** Everything the loop adds to the log: one block per location, in table
    order. *)
Fixpoint loopEvents (log : list event) (locs : list Row.t) : list event :=
  match locs with
  | [] => []
  | loc :: rest =>
      locationEvents log loc ++ loopEvents (log ++ locationEvents log loc) rest
  end.

End Chains.

(** An entry whose external fields are those of a Wikidata match and of a
    Wikipedia summary. *)
Definition mergedEntry (wd : option WdEntry.t) (wiki : option Summary.t)
    (concl : list string) : Entry.t :=
  Entry.mk
    (wiki ≫= Summary.description)
    (wiki ≫= Summary.thumbnail)
    (wd ≫= WdEntry.coatOfArms)
    (wd ≫= WdEntry.photo)
    (wd ≫= WdEntry.postalCode)
    (wd ≫= WdEntry.elevation)
    (wd ≫= WdEntry.officialWebsite)
    (wd ≫= WdEntry.licensePlate)
    (Some (match wd with Some w => WdEntry.sisterCities w | None => [] end))
    (Some concl).

(** The entry one iteration stores, from the log it starts with. *)
Definition entryFor (net : network) (wikidataMap : gmap string WdEntry.t)
    (zupanije gradovi opcine : list Row.t) (log : list event) (loc : Row.t) : Entry.t :=
  mergedEntry (wikidataMatch wikidataMap loc) (resolvedSummary net log loc)
    (Conclusions.generateConclusions loc (Row.type loc) zupanije gradovi opcine).

(** The titles of the summary requests of a log, in order. *)
Definition wikipediaTitles (log : list event) : list string :=
  omap (fun e => match e with
                 | Start (WikipediaReq title) => Some title
                 | _ => None
                 end) log.

Definition is_wikipedia_event (e : event) : bool :=
  match e with
  | Start r | Settle r => is_wikipedia r
  | Sleep _ => false
  end.

(** Logs in which every summary request settles before anything else
    happens. *)
Inductive wiki_sequential : list event -> Prop :=
| ws_nil : wiki_sequential []
| ws_other e l :
    is_wikipedia_event e = false -> wiki_sequential l -> wiki_sequential (e :: l)
| ws_fetch title l :
    wiki_sequential l ->
    wiki_sequential (Start (WikipediaReq title) :: Settle (WikipediaReq title) :: l).

(** *** Further notions for stating what a run does *)

(** How the promise of [fetchSparql] settles, by the way the request ends. *)
Definition bindingsOf (out : http (list Binding.t)) : result (list Binding.t) :=
  match out with
  | Response true (Some bindings) => Ok bindings
  | _ => Throw
  end.

(** The settlements of the four queries of step 1, each answered from the
    log at which it is issued. *)
Definition sparqlOutcomes (net : network) (log : list event)
    : list (result (list Binding.t)) :=
  let log1 := log ++ [Start (SparqlReq "settlements")] in
  let log2 := log1 ++ [Start (SparqlReq "counties")] in
  let log3 := log2 ++ [Start (SparqlReq "cities")] in
  [ bindingsOf (sparql net log "settlements");
    bindingsOf (sparql net log1 "counties");
    bindingsOf (sparql net log2 "cities");
    bindingsOf (sparql net log3 "municipalities") ].

(** The part of an entry that does not come from Wikidata. *)
Definition wikipediaPart (e : Entry.t)
    : option string * option string * option (list string) :=
  (Entry.description e, Entry.thumbnail e, Entry.conclusions e).

(** The locations whose summary resolves, directly or under the alternate
    title, when the loop runs over them from a log. *)
Fixpoint hits (net : network) (log : list event) (locs : list Row.t) : nat :=
  match locs with
  | [] => 0
  | loc :: rest =>
      (if Js.isSome (resolvedSummary net log loc) then 1 else 0)
      + hits net (log ++ locationEvents net log loc) rest
  end.

(** The milliseconds slept in a log. *)
Fixpoint slept (log : list event) : nat :=
  match log with
  | [] => 0
  | Sleep ms :: log' => ms + slept log'
  | _ :: log' => slept log'
  end.

End Enrich.

(** ** A small run: one county, one city, one municipality *)

Module Demo.

Import Net.
Local Open Scope float_scope.

Definition zupanija : Row.t :=
  Row.mk (Row.IdNum 17) "Splitsko-dalmatinska županija" "splitsko-dalmatinska"
    None None "" 423407 (-6.9) 93.3 43.5 22.1 14.9 None 48.5 51.5.

Definition split : Row.t :=
  Row.mk (Row.IdNum 409) "Split" "split" (Some "grad") (Some (Row.IdNum 17))
    "Splitsko-dalmatinska županija" 160577 (-9.9) 2022.4 44.1 23.5 14.0
    (Some 30.2) 47.0 53.0.

Definition bol : Row.t :=
  Row.mk (Row.IdNum 2) "Bol" "bol" (Some "opcina") (Some (Row.IdNum 17))
    "Splitsko-dalmatinska županija" 1678 2.9 72.6 45.2 24.8 13.1
    (Some 21.0) 48.9 51.1.

(** The same county with four times the inhabitants. *)
Definition zupanijaLarge : Row.t :=
  Row.mk (Row.IdNum 17) "Splitsko-dalmatinska županija" "splitsko-dalmatinska"
    None None "" 1693628 (-6.9) 93.3 43.5 22.1 14.9 None 48.5 51.5.

(** Another record with the statistics of [split], and a county table that
    holds the same county under a string identifier. *)
Definition splitTwin : Row.t :=
  Row.mk (Row.IdStr "HR-409") "Split" "split-grad" (Some "grad") (Some (Row.IdStr "17"))
    "Splitsko-dalmatinska" 160577 (-9.9) 2022.4 44.1 23.5 14.0
    (Some 30.2) 46.5 53.5.

Definition zupanijaTwin : Row.t :=
  Row.mk (Row.IdStr "17") "Splitsko-dalmatinska županija" "sdz"
    None None "" 423407 (-7.1) 93.0 43.6 22.0 15.0 None 48.0 52.0.

Definition bolBinding : Binding.t :=
  Binding.mk (Some "Bol") (Some "http://commons.wikimedia.org/Bol_grb.svg") None
    (Some "21420") None (Some "https://www.opcinabol.hr") None None.

Definition countyBinding : Binding.t :=
  Binding.mk (Some "Splitsko-dalmatinska") None None None None None (Some "ST") None.

(** Wikidata answers the municipality and county queries; Wikipedia has
    pages for the county, for 'Split' and for 'Bol (općina)' only. *)
Definition online : network :=
  {| sparql := fun _ label =>
       if String.eqb label "municipalities" then Response true (Some [bolBinding])
       else if String.eqb label "counties" then Response true (Some [countyBinding])
       else Response true (Some []);
     wikipedia := fun _ title =>
       if String.eqb title "Bol" then Response false None
       else Response true
              (Some {| extract := Some ("Članak " ++ title)%string;
                       thumbnail_source := None |}) |}.

(** Nothing can be reached. *)
Definition offline : network :=
  {| sparql := fun _ _ => NetworkError;
     wikipedia := fun _ _ => NetworkError |}.

Definition parseFloat0 : string -> float := fun _ => 0.

(** Further rows: two more for 'Bol', with another postal code, two
    elevations and the same sister city twice, and a row labelled with a
    member of [Object.prototype]. *)
Definition bolSecond : Binding.t :=
  Binding.mk (Some "Bol") None None (Some "21421") (Some "0") None None (Some "Postira").

Definition bolThird : Binding.t :=
  Binding.mk (Some "Bol") None None None (Some "11") None None (Some "Postira").

Definition toStringBinding : Binding.t :=
  Binding.mk (Some "toString") None None (Some "10000") None None None None.

Definition demoRows : list Binding.t :=
  [countyBinding; bolBinding; bolSecond; toStringBinding; bolThird].

(** [parseFloat] on the two elevation literals of these rows. *)
Definition parseElevation : string -> float :=
  fun s => if String.eqb s "11" then 11 else 0.

(** What [processWikidataResults] makes of [demoRows]. *)
Definition demoMap : gmap string WdEntry.t :=
  <["Bol" := WdEntry.mk (Some "http://commons.wikimedia.org/Bol_grb.svg") None
               (Some "21420") (Some 11) (Some "https://www.opcinabol.hr") None
               ["Postira"]]>
    (<["Splitsko-dalmatinska" := WdEntry.mk None None None None None (Some "ST") []]> ∅).

End Demo.

(** Closes a goal that equates what an iteration returns with its stated
    form, the two counters being left open. *)
Ltac stored :=
  unfold Net.ret, Net.sleep, Net.emit, Enrich.fetchEvents; cbn [fst snd];
  eexists _, _; rewrite <- ?app_assoc; cbn [app];
  match goal with
  | |- context [Enrich.wikidataMatch ?m ?l] => destruct (Enrich.wikidataMatch m l)
  end; reflexivity.

(** * Properties *)

(** ** The search and comparison indexes *)

Module SearchIndexFacts.

Import Row SearchIndex.
Local Open Scope list_scope.

Lemma lookup_map_some {A B} (f : A -> B) (l : list A) i x :
  l !! i = Some x -> map f l !! i = Some (f x).
Proof.
  intros H. change (map f l) with (f <$> l). by rewrite list_lookup_fmap, H.
Qed.

Lemma lookup_app_skip {A} (l1 l2 : list A) i :
  (l1 ++ l2) !! (length l1 + i) = l2 !! i.
Proof. by rewrite lookup_app_r, Nat.add_comm, Nat.add_sub by lia. Qed.

Lemma searchIndex_keys zupanije gradovi opcine e :
  e ∈ searchIndex zupanije gradovi opcine ->
  Js.keys e = ["name"; "slug"; "type"; "county"; "pop"]%string.
Proof.
  unfold searchIndex. rewrite !elem_of_app.
  intros [H | [H | H]]; apply list_elem_of_In, in_map_iff in H;
    destruct H as (r & <- & _); reflexivity.
Qed.

(** C2: the search index holds one entry per county, city and municipality:
    its length is the sum of the three table lengths; the entry at position
    [i] comes from the [i]-th county, the one at [|zupanije| + i] from the
    [i]-th city, the one at [|zupanije| + |gradovi| + i] from the [i]-th
    municipality; every entry has exactly the keys name, slug, type, county
    and pop, in that order, and a county's entry has the empty county. *)
Theorem search_index_one_entry_per_row (zupanije gradovi opcine : list Row.t) :
  let idx := search_index_json (run zupanije gradovi opcine) in
  length idx = length zupanije + length gradovi + length opcine
  /\ (forall i z, zupanije !! i = Some z ->
        exists e, idx !! i = Some e
          /\ Js.get "name" e = Js.Str (name z)
          /\ Js.get "slug" e = Js.Str (slug z)
          /\ Js.get "type" e = Js.Str "zupanija"
          /\ Js.get "county" e = Js.Str ""
          /\ Js.get "pop" e = Js.Num (population_2021 z))
  /\ (forall i g, gradovi !! i = Some g ->
        exists e, idx !! (length zupanije + i) = Some e
          /\ Js.get "name" e = Js.Str (name g)
          /\ Js.get "slug" e = Js.Str (slug g)
          /\ Js.get "type" e = Js.Str "grad"
          /\ Js.get "county" e = Js.Str (county_name g)
          /\ Js.get "pop" e = Js.Num (population_2021 g))
  /\ (forall i o, opcine !! i = Some o ->
        exists e, idx !! (length zupanije + length gradovi + i) = Some e
          /\ Js.get "name" e = Js.Str (name o)
          /\ Js.get "slug" e = Js.Str (slug o)
          /\ Js.get "type" e = Js.Str "opcina"
          /\ Js.get "county" e = Js.Str (county_name o)
          /\ Js.get "pop" e = Js.Num (population_2021 o))
  /\ (forall e, e ∈ idx ->
        Js.keys e = ["name"; "slug"; "type"; "county"; "pop"]%string).
Proof.
  cbn zeta. unfold run, search_index_json, searchIndex.
  split; [| split; [| split; [| split]]].
  - rewrite !length_app, !length_map. lia.
  - intros i z Hz. exists (zupanijaEntry z). split; [| by repeat split].
    rewrite lookup_app_l by (rewrite length_map; by eapply lookup_lt_Some).
    by apply lookup_map_some.
  - intros i g Hg. exists (gradEntry g). split; [| by repeat split].
    rewrite <- (length_map zupanijaEntry zupanije), lookup_app_skip.
    rewrite lookup_app_l by (rewrite length_map; by eapply lookup_lt_Some).
    by apply lookup_map_some.
  - intros i o Ho. exists (opcinaEntry o). split; [| by repeat split].
    rewrite <- Nat.add_assoc.
    rewrite <- (length_map zupanijaEntry zupanije), lookup_app_skip.
    rewrite <- (length_map gradEntry gradovi), lookup_app_skip.
    by apply lookup_map_some.
  - apply searchIndex_keys.
Qed.

(** C3: the comparison index is the cities followed by the municipalities,
    one entry each in table order: its length is the sum of the two table
    lengths; the entry at position [i] has exactly the eleven keys of the
    index, in order, each with the value that the [i]-th city has in that
    field, and the entry at [|gradovi| + i] has those of the [i]-th
    municipality; there is no other entry, so none comes from a county, and
    the county table has no influence on the index. *)
Theorem compare_index_cities_then_municipalities (zupanije gradovi opcine : list Row.t) :
  let cmp := locations_compare_json (run zupanije gradovi opcine) in
  length cmp = length gradovi + length opcine
  /\ (forall i g, gradovi !! i = Some g ->
        exists e, cmp !! i = Some e
          /\ e = compareEntry g
          /\ Js.keys e
             = ["name"; "slug"; "type"; "county_name"; "population_2021"; "change_pct";
                "density"; "avg_age"; "education_university_pct"; "male_pct";
                "female_pct"]%string
          /\ Js.get "name" e = Js.Str (name g)
          /\ Js.get "slug" e = Js.Str (slug g)
          /\ Js.get "type" e = js_opt_str (type g)
          /\ Js.get "county_name" e = Js.Str (county_name g)
          /\ Js.get "population_2021" e = Js.Num (population_2021 g)
          /\ Js.get "change_pct" e = Js.Num (change_pct g)
          /\ Js.get "density" e = Js.Num (density g)
          /\ Js.get "avg_age" e = Js.Num (avg_age g)
          /\ Js.get "education_university_pct" e = js_opt_num (education_university_pct g)
          /\ Js.get "male_pct" e = Js.Num (male_pct g)
          /\ Js.get "female_pct" e = Js.Num (female_pct g))
  /\ (forall i o, opcine !! i = Some o ->
        exists e, cmp !! (length gradovi + i) = Some e
          /\ e = compareEntry o
          /\ Js.keys e
             = ["name"; "slug"; "type"; "county_name"; "population_2021"; "change_pct";
                "density"; "avg_age"; "education_university_pct"; "male_pct";
                "female_pct"]%string
          /\ Js.get "name" e = Js.Str (name o)
          /\ Js.get "slug" e = Js.Str (slug o)
          /\ Js.get "type" e = js_opt_str (type o)
          /\ Js.get "county_name" e = Js.Str (county_name o)
          /\ Js.get "population_2021" e = Js.Num (population_2021 o)
          /\ Js.get "change_pct" e = Js.Num (change_pct o)
          /\ Js.get "density" e = Js.Num (density o)
          /\ Js.get "avg_age" e = Js.Num (avg_age o)
          /\ Js.get "education_university_pct" e = js_opt_num (education_university_pct o)
          /\ Js.get "male_pct" e = Js.Num (male_pct o)
          /\ Js.get "female_pct" e = Js.Num (female_pct o))
  /\ (forall i e, cmp !! i = Some e ->
        (exists g, gradovi !! i = Some g)
        \/ (exists j o, i = length gradovi + j /\ opcine !! j = Some o))
  /\ (forall e, e ∈ cmp -> exists r, r ∈ gradovi ++ opcine /\ e = compareEntry r)
  /\ (forall zupanije', locations_compare_json (run zupanije' gradovi opcine) = cmp)
  /\ (gradovi = [] -> opcine = [] -> cmp = []).
Proof.
  cbn zeta. unfold run, locations_compare_json, compareData.
  split; [| split; [| split; [| split; [| split; [| split]]]]].
  - by rewrite length_app, !length_map.
  - intros i g Hg. exists (compareEntry g). split; [| by repeat split].
    rewrite lookup_app_l by (rewrite length_map; by eapply lookup_lt_Some).
    by apply lookup_map_some.
  - intros i o Ho. exists (compareEntry o). split; [| by repeat split].
    rewrite <- (length_map compareEntry gradovi), lookup_app_skip.
    by apply lookup_map_some.
  - intros i e He. apply lookup_app_Some in He as [He | [Hge He]].
    + left. change (map compareEntry gradovi) with (compareEntry <$> gradovi) in He.
      rewrite list_lookup_fmap in He.
      destruct (gradovi !! i) as [g |]; [by eexists | done].
    + right. rewrite length_map in Hge, He.
      change (map compareEntry opcine) with (compareEntry <$> opcine) in He.
      rewrite list_lookup_fmap in He.
      destruct (opcine !! (i - length gradovi)) as [o |] eqn:Ho; [| done].
      exists (i - length gradovi), o. split; [lia | done].
  - intros e He. rewrite <- map_app in He.
    apply list_elem_of_In, in_map_iff in He. destruct He as (r & <- & Hr).
    exists r. split; [by apply list_elem_of_In | done].
  - done.
  - by intros -> ->.
Qed.

End SearchIndexFacts.

(** ** generateConclusions *)

Module ConclusionsFacts.

Import Row Location Conclusions.
Local Open Scope list_scope.

Lemma countyComparison_countyOf location type zupanije :
  countyComparison location type zupanije =
  if negb (type_is type "zupanija") then
    match countyOf location zupanije with
    | Some county =>
        if gt (population_2021 location) (population_2021 county * 0.3)%float then
          [(name location ++ " je najveće urbano središte "
            ++ Js.replace "Grad Zagreb" "Grada Zagreba"
                 (Js.replace " županija" "e županije" (name county))
            ++ ", s "
            ++ Js.toFixed (population_2021 location / population_2021 county * 100)%float 0
            ++ "% županijskog stanovništva.")%string]
        else []
    | None => []
    end
  else [].
Proof.
  unfold countyComparison, countyOf.
  destruct (county_id location) as [cid |]; [| by destruct (negb _)].
  destruct (negb _), (ident_truthy cid); try done.
Qed.

Lemma changeVerdict_length change : length (changeVerdict change) = 1.
Proof. unfold changeVerdict. by repeat case_match. Qed.

Lemma generateConclusions_nonempty location type zupanije gradovi opcine :
  generateConclusions location type zupanije gradovi opcine <> [].
Proof.
  unfold generateConclusions, pushed.
  pose proof (changeVerdict_length (change_pct location)) as H.
  destruct (changeVerdict (change_pct location)) as [| s l]; [done |].
  destruct l; [| done]. discriminate.
Qed.

(** C7 (as amended): the sentences returned are a function of the type,
    the location's name and census statistics, and the name and population
    of the county that the county table holds for the location's
    [county_id]; the city and municipality tables, and every other field of
    the location, have no influence.  At most five sentences are returned,
    and never none. *)
Theorem generateConclusions_inputs
    (a b : Row.t) (type : option string)
    (zupanije zupanije' gradovi gradovi' opcine opcine' : list Row.t)
    (Hstat : same_statistics a b)
    (Hcounty : same_county (countyOf a zupanije) (countyOf b zupanije')) :
  generateConclusions a type zupanije gradovi opcine
  = generateConclusions b type zupanije' gradovi' opcine'
  /\ 1 <= length (generateConclusions a type zupanije gradovi opcine) <= 5.
Proof.
  split.
  - unfold generateConclusions, pushed, sizeContext.
    rewrite !countyComparison_countyOf.
    destruct Hstat as [-> -> -> -> -> -> -> ->].
    unfold same_county in Hcounty.
    destruct (countyOf a zupanije) as [x |], (countyOf b zupanije') as [y |];
      try done.
    by destruct Hcounty as [-> ->].
  - split.
    + pose proof (generateConclusions_nonempty a type zupanije gradovi opcine).
      destruct (generateConclusions _ _ _ _ _); [done | cbn; lia].
    + unfold generateConclusions. rewrite length_take. lia.
Qed.

End ConclusionsFacts.

(** ** processWikidataResults *)

Module WikidataFacts.

Import Net.
Local Open Scope list_scope.

Section Rows.

Variable parseFloat : string -> float.

Abbreviation step := (processRow parseFloat).

Lemma labelled_spec k row :
  labelled k row = true <-> Js.truthy_str (Binding.itemLabel row) = Some k.
Proof.
  unfold labelled. destruct (Js.truthy_str _) as [name |]; [| by split].
  rewrite String.eqb_eq. split; congruence.
Qed.

Lemma builtinMember_reserved name : builtinMember name = true -> reserved name = true.
Proof. unfold reserved. by intros ->. Qed.

Lemma inheritedValue_reserved proto name :
  inheritedValue proto name = true -> reserved name = true.
Proof.
  unfold inheritedValue.
  repeat match goal with
         | |- context [String.eqb name ?s] =>
             destruct (String.eqb_spec name s) as [-> | _]; [by intros _ |]
         end.
  discriminate.
Qed.

Lemma inheritedValue_clean name : inheritedValue cleanPrototype name = false.
Proof.
  unfold inheritedValue.
  repeat match goal with
         | |- context [String.eqb name ?s] => destruct (String.eqb name s); [reflexivity |]
         end.
  reflexivity.
Qed.

Lemma reserved_other name k :
  reserved name = true -> reserved k = false -> String.eqb name k = false.
Proof. intros Hn Hk. apply String.eqb_neq. congruence. Qed.

(** What one row does to the entry under a name that is not reserved. *)
Lemma processRow_lookup st row st' k :
  step st row = Ok st' ->
  reserved k = false ->
  st'.1 !! k
  = if labelled k row then Some (mergeRow parseFloat (default WdEntry.empty (st.1 !! k)) row)
    else st.1 !! k.
Proof.
  destruct st as [m p]. unfold processRow, labelled.
  destruct (Js.truthy_str (Binding.itemLabel row)) as [name |];
    [| by intros [= <-]].
  destruct (m !! name) as [entry |] eqn:Hown.
  - intros [= <-] _. cbn [fst].
    destruct (String.eqb_spec name k) as [<- | Hne].
    + by rewrite lookup_insert_eq, Hown.
    + by rewrite lookup_insert_ne.
  - destruct (String.eqb_spec name "__proto__") as [-> | Hp].
    { intros H Hk. rewrite (reserved_other "__proto__" k) by done.
      by destruct (Js.isSome _); [| injection H as <-]. }
    destruct (builtinMember name) eqn:Hb.
    { intros H Hk.
      rewrite (reserved_other name k) by (by try apply builtinMember_reserved).
      by destruct (Js.isSome _); [| injection H as <-]. }
    destruct (inheritedValue p name) eqn:Hi.
    { intros H Hk.
      rewrite (reserved_other name k) by (by try eapply inheritedValue_reserved).
      by destruct (_ || _); [| injection H as <-]. }
    intros [= <-] _. cbn [fst].
    destruct (String.eqb_spec name k) as [<- | Hne].
    + by rewrite lookup_insert_eq, Hown.
    + by rewrite lookup_insert_ne.
Qed.

(** No entry is ever created under a member of [Object.prototype]. *)
Lemma processRow_builtin st row st' k :
  step st row = Ok st' ->
  builtinMember k = true ->
  st.1 !! k = None -> st'.1 !! k = None.
Proof.
  destruct st as [m p]. unfold processRow. cbn [fst].
  destruct (Js.truthy_str (Binding.itemLabel row)) as [name |];
    [| by intros [= <-]].
  destruct (m !! name) as [entry |] eqn:Hown.
  - intros [= <-] _ Hk. cbn [fst]. rewrite lookup_insert_ne; [done |]. congruence.
  - destruct (String.eqb_spec name "__proto__") as [-> | Hp].
    { intros H _ Hk. by destruct (Js.isSome _); [| injection H as <-]. }
    destruct (builtinMember name) eqn:Hb.
    { intros H _ Hk. by destruct (Js.isSome _); [| injection H as <-]. }
    destruct (inheritedValue p name).
    { intros H _ Hk. by destruct (_ || _); [| injection H as <-]. }
    intros [= <-] Hk Hnone. cbn [fst]. rewrite lookup_insert_ne; [done |]. congruence.
Qed.

Lemma mergeRows_cons k e row bs :
  mergeRows parseFloat k e (row :: bs)
  = mergeRows parseFloat k (if labelled k row then mergeRow parseFloat e row else e) bs.
Proof. reflexivity. Qed.

Lemma mergeRows_unlabelled k e bs :
  existsb (labelled k) bs = false -> mergeRows parseFloat k e bs = e.
Proof.
  revert e. induction bs as [| row bs IH]; intros e; [done |].
  rewrite mergeRows_cons. cbn [existsb].
  destruct (labelled k row); cbn [orb]; [done | apply IH].
Qed.

(** The entry under a name that is not reserved, after the loop. *)
Lemma processRows_lookup bs : forall st st' k,
  processRows parseFloat st bs = Ok st' ->
  reserved k = false ->
  st'.1 !! k
  = if existsb (labelled k) bs
    then Some (mergeRows parseFloat k (default WdEntry.empty (st.1 !! k)) bs)
    else st.1 !! k.
Proof.
  induction bs as [| row bs IH]; intros st st' k; [by intros [= <-] |].
  cbn [processRows existsb].
  destruct (step st row) as [st1 |] eqn:Hrow; [| done]. intros Hrun Hk.
  rewrite (IH _ _ _ Hrun Hk), (processRow_lookup _ _ _ _ Hrow Hk), mergeRows_cons.
  destruct (labelled k row) eqn:Hl; cbn [orb default]; [| done].
  destruct (existsb (labelled k) bs) eqn:Hbs; [done |].
  by rewrite mergeRows_unlabelled.
Qed.

Lemma processRows_builtin bs : forall st st' k,
  processRows parseFloat st bs = Ok st' ->
  builtinMember k = true ->
  st.1 !! k = None -> st'.1 !! k = None.
Proof.
  induction bs as [| row bs IH]; intros st st' k; [by intros [= <-] |].
  cbn [processRows].
  destruct (step st row) as [st1 |] eqn:Hrow; [| done]. intros Hrun Hk Hnone.
  eapply IH; [done | done |]. by eapply processRow_builtin.
Qed.

Lemma processWikidataResults_run bs m :
  processWikidataResults parseFloat bs = Ok m ->
  exists proto, processRows parseFloat (∅, cleanPrototype) bs = Ok (m, proto).
Proof.
  unfold processWikidataResults.
  destruct (processRows _ _ _) as [[m' proto] |]; [| done].
  intros [= <-]. by exists proto.
Qed.

Lemma processWikidataResults_lookup bs m k :
  processWikidataResults parseFloat bs = Ok m ->
  reserved k = false ->
  m !! k
  = if existsb (labelled k) bs
    then Some (mergeRows parseFloat k WdEntry.empty bs)
    else None.
Proof.
  intros [proto Hrun]%processWikidataResults_run Hk.
  pose proof (processRows_lookup _ _ _ _ Hrun Hk) as H. cbn [fst] in H.
  by rewrite H, lookup_empty.
Qed.

Lemma rowValues_unlabelled field k bs :
  existsb (labelled k) bs = false -> rowValues field k bs = [].
Proof.
  unfold rowValues. induction bs as [| row bs IH]; cbn; [done |].
  destruct (labelled k row); cbn; [done | apply IH].
Qed.

(** *** String fields: the first non-empty value stays *)

Section Field.

Variable get : WdEntry.t -> option string.
Variable field : Binding.t -> option string.
Hypothesis get_empty : get WdEntry.empty = None.
Hypothesis get_mergeRow : forall e row,
  get (mergeRow parseFloat e row) = firstTruthy (get e) (field row).

Lemma firstTruthy_kept cur new v :
  Js.truthy_str cur = Some v -> firstTruthy cur new = cur.
Proof. unfold firstTruthy. intros ->. by destruct (Js.truthy_str new). Qed.

Lemma truthy_str_Some o v : Js.truthy_str o = Some v -> Js.truthy_str (Some v) = Some v.
Proof. destruct o as [[| c s] |]; cbn; [done | by intros [= <-] | done]. Qed.

Lemma mergeRows_kept k bs : forall e v,
  Js.truthy_str (get e) = Some v -> get (mergeRows parseFloat k e bs) = get e.
Proof.
  induction bs as [| row bs IH]; intros e v Hv; [done |].
  rewrite mergeRows_cons.
  destruct (labelled k row); [| by eapply IH].
  assert (get (mergeRow parseFloat e row) = get e) as Hkeep
    by (rewrite get_mergeRow; by eapply firstTruthy_kept).
  rewrite (IH _ v); [done |]. by rewrite Hkeep.
Qed.

Lemma mergeRows_first k bs : forall e,
  get e = None -> get (mergeRows parseFloat k e bs) = head (rowValues field k bs).
Proof.
  unfold rowValues.
  induction bs as [| row bs IH]; intros e He; [done |].
  rewrite mergeRows_cons. cbn [omap list_omap].
  destruct (labelled k row); [| by apply IH].
  destruct (Js.truthy_str (field row)) as [v |] eqn:Hv; cbn [head].
  - assert (get (mergeRow parseFloat e row) = Some v) as Hset
      by (rewrite get_mergeRow, He; unfold firstTruthy; by rewrite Hv).
    rewrite (mergeRows_kept k bs _ v), Hset; [done |].
    rewrite Hset. by eapply truthy_str_Some.
  - apply IH. rewrite get_mergeRow, He. unfold firstTruthy. by rewrite Hv.
Qed.

Lemma field_first_value bs k :
  (if existsb (labelled k) bs
   then Some (mergeRows parseFloat k WdEntry.empty bs)
   else None) ≫= get
  = head (rowValues field k bs).
Proof.
  destruct (existsb (labelled k) bs) eqn:Hbs; cbn.
  - by apply mergeRows_first.
  - by rewrite rowValues_unlabelled.
Qed.

End Field.

(** *** Sister cities *)

Lemma addSisterCity_NoDup cur new : NoDup cur -> NoDup (addSisterCity cur new).
Proof.
  intros H. unfold addSisterCity. destruct (Js.truthy_str new) as [sc |]; [| done].
  case_bool_decide; [done |]. apply NoDup_app. repeat split; [done | | apply NoDup_singleton].
  intros x Hx ->%list_elem_of_singleton. done.
Qed.

Lemma addSisterCity_elem cur new sc :
  sc ∈ addSisterCity cur new <-> sc ∈ cur \/ Js.truthy_str new = Some sc.
Proof.
  unfold addSisterCity. destruct (Js.truthy_str new) as [x |].
  - case_bool_decide as Hx.
    + split; [by left | intros [? | [= <-]]; done].
    + rewrite elem_of_app, list_elem_of_singleton.
      split; (intros [? | H]; [by left | right; congruence]).
  - split; [by left | by intros [? | ?]].
Qed.

Lemma mergeRows_sisterCities k bs : forall e,
  NoDup (WdEntry.sisterCities e) ->
  NoDup (WdEntry.sisterCities (mergeRows parseFloat k e bs))
  /\ forall sc, sc ∈ WdEntry.sisterCities (mergeRows parseFloat k e bs)
                <-> sc ∈ WdEntry.sisterCities e
                    \/ sc ∈ rowValues Binding.sisterCityLabel k bs.
Proof.
  unfold rowValues.
  induction bs as [| row bs IH]; intros e He.
  - split; [done |]. intros sc. cbn. rewrite elem_of_nil. tauto.
  - rewrite mergeRows_cons. cbn [omap list_omap].
    destruct (labelled k row); [| by apply IH].
    destruct (IH (mergeRow parseFloat e row)) as [Hnd Hel];
      [by apply addSisterCity_NoDup |].
    split; [done |]. intros sc. rewrite Hel. cbn [mergeRow WdEntry.sisterCities].
    rewrite addSisterCity_elem.
    destruct (Js.truthy_str (Binding.sisterCityLabel row)) as [x |].
    + rewrite elem_of_cons. split; [intros [[? | [= <-]] | ?] | intros [? | [-> | ?]]];
        tauto.
    + split; [intros [[? | ?] | ?] | intros [? | ?]]; try tauto. done.
Qed.

(** *** Elevation *)

Lemma settledElevation_nil cur : settledElevation cur [] = cur.
Proof. unfold settledElevation. by destruct (numTruthy cur). Qed.

Lemma settledElevation_cons cur x parsed :
  settledElevation cur (x :: parsed)
  = settledElevation (if numTruthy cur then cur else Some x) parsed.
Proof.
  unfold settledElevation. destruct (numTruthy cur) eqn:Hc; [by rewrite Hc |].
  cbn [find numTruthy]. destruct (Js.truthy_num x); [done |].
  destruct (find Js.truthy_num parsed); [done |].
  destruct parsed as [| y parsed]; [done |]. rewrite last_cons_cons.
  destruct (last (y :: parsed)) eqn:Hl; [done | by apply last_None in Hl].
Qed.

Lemma mergeRows_elevation k bs : forall e,
  WdEntry.elevation (mergeRows parseFloat k e bs)
  = settledElevation (WdEntry.elevation e)
      (parseFloat <$> rowValues Binding.elevation k bs).
Proof.
  unfold rowValues.
  induction bs as [| row bs IH]; intros e.
  - by rewrite settledElevation_nil.
  - rewrite mergeRows_cons. cbn [omap list_omap].
    destruct (labelled k row); [| by apply IH].
    rewrite IH. cbn [mergeRow WdEntry.elevation]. unfold firstElevation.
    destruct (Js.truthy_str (Binding.elevation row)) as [v |]; [| done].
    cbn [fmap list_fmap]. rewrite settledElevation_cons.
    destruct (WdEntry.elevation e) as [y |]; cbn [numTruthy]; [| done].
    by destruct (Js.truthy_num y).
Qed.

(** *** A repeated row *)

Lemma firstTruthy_again cur new :
  firstTruthy (firstTruthy cur new) new = firstTruthy cur new.
Proof.
  unfold firstTruthy.
  destruct (Js.truthy_str new) as [v |] eqn:Hn; [| done].
  destruct (Js.truthy_str cur) as [w |] eqn:Hc.
  - by rewrite Hc.
  - by rewrite (truthy_str_Some _ _ Hn).
Qed.

Lemma firstElevation_again cur new :
  firstElevation parseFloat (firstElevation parseFloat cur new) new
  = firstElevation parseFloat cur new.
Proof.
  unfold firstElevation. destruct (Js.truthy_str new) as [v |]; [| done].
  destruct cur as [x |].
  - destruct (Js.truthy_num x) eqn:Hx; [by rewrite Hx |].
    by destruct (Js.truthy_num (parseFloat v)).
  - by destruct (Js.truthy_num (parseFloat v)).
Qed.

Lemma addSisterCity_again cur new :
  addSisterCity (addSisterCity cur new) new = addSisterCity cur new.
Proof.
  unfold addSisterCity. destruct (Js.truthy_str new) as [sc |]; [| done].
  destruct (bool_decide (sc ∈ cur)) eqn:H1; [by rewrite H1 |].
  rewrite bool_decide_true; [done |]. apply elem_of_app. right. by left.
Qed.

Lemma mergeRow_again e row :
  mergeRow parseFloat (mergeRow parseFloat e row) row = mergeRow parseFloat e row.
Proof.
  unfold mergeRow. cbn.
  by rewrite !firstTruthy_again, firstElevation_again, addSisterCity_again.
Qed.

Lemma mergePrototype_again proto row :
  mergePrototype parseFloat (mergePrototype parseFloat proto row) row
  = mergePrototype parseFloat proto row.
Proof.
  unfold mergePrototype. cbn.
  by rewrite !firstTruthy_again, firstElevation_again.
Qed.

Lemma processRow_again st row st' : step st row = Ok st' -> step st' row = Ok st'.
Proof.
  destruct st as [m p]. unfold processRow.
  destruct (Js.truthy_str (Binding.itemLabel row)) as [name |] eqn:Hname;
    [| by intros [= <-]].
  destruct (m !! name) as [entry |] eqn:Hown.
  - intros [= <-]. by rewrite lookup_insert_eq, insert_insert_eq, mergeRow_again.
  - destruct (String.eqb name "__proto__") eqn:Hp.
    { destruct (Js.isSome _) eqn:Hs; [done |]. intros [= <-].
      by rewrite ?Hown, ?Hp, ?Hs, ?mergePrototype_again. }
    destruct (builtinMember name) eqn:Hb.
    { destruct (Js.isSome _) eqn:Hs; [done |]. intros [= <-].
      by rewrite ?Hown, ?Hp, ?Hb, ?Hs. }
    destruct (inheritedValue p name) eqn:Hi.
    { destruct (_ || _) eqn:Hs; [done |]. intros [= <-].
      by rewrite ?Hown, ?Hp, ?Hb, ?Hi, ?Hs. }
    intros [= <-]. by rewrite lookup_insert_eq, insert_insert_eq, mergeRow_again.
Qed.

(** What the rows labelled [k] make of a new entry is as [entryFromRows]
    states. *)
Lemma mergeRows_entry bs k :
  entryFromRows parseFloat k bs
    (if existsb (labelled k) bs
     then Some (mergeRows parseFloat k WdEntry.empty bs)
     else None).
Proof.
  unfold entryFromRows.
  split; [| repeat (split; [by apply field_first_value |])].
  - destruct (existsb (labelled k) bs) eqn:Hbs.
    + apply existsb_exists in Hbs as (row & Hin & Hrow).
      split; [| by eexists]. intros _. exists row.
      split; [by apply list_elem_of_In | by apply labelled_spec].
    + split; [by intros [? ?] |]. intros (row & Hin & Hrow).
      assert (existsb (labelled k) bs = true) as Habs; [| congruence].
      apply existsb_exists. exists row.
      split; [by apply list_elem_of_In | by apply labelled_spec].
  - split.
    + destruct (existsb (labelled k) bs) eqn:Hbs; cbn [mbind option_bind].
      * rewrite mergeRows_elevation. unfold settledElevation.
        cbn [WdEntry.empty WdEntry.elevation numTruthy].
        destruct (find _ _); [done |]. by destruct (last _).
      * by rewrite rowValues_unlabelled.
    + destruct (existsb (labelled k) bs) eqn:Hbs; cbn.
      * destruct (mergeRows_sisterCities k bs WdEntry.empty) as [Hnd Hel];
          [constructor |].
        split; [done |]. intros sc. rewrite Hel. cbn. rewrite elem_of_nil. tauto.
      * split; [constructor |]. intros sc. by rewrite rowValues_unlabelled.
Qed.

(** The entry under a name that is not reserved is what its rows make it. *)
Lemma processWikidataResults_entry bs m k :
  processWikidataResults parseFloat bs = Ok m ->
  reserved k = false ->
  entryFromRows parseFloat k bs (m !! k).
Proof.
  intros Hrun Hk. rewrite (processWikidataResults_lookup _ _ _ Hrun Hk).
  apply mergeRows_entry.
Qed.

(** *** Rows without a member of [Object.prototype] as a label *)

Lemma processRow_plain m row :
  (forall name, Js.truthy_str (Binding.itemLabel row) = Some name ->
     builtinMember name = false) ->
  exists m', step (m, cleanPrototype) row = Ok (m', cleanPrototype)
    /\ forall k, m' !! k
         = if labelled k row
           then Some (mergeRow parseFloat (default WdEntry.empty (m !! k)) row)
           else m !! k.
Proof.
  intros Hplain. unfold processRow, labelled.
  destruct (Js.truthy_str (Binding.itemLabel row)) as [name |] eqn:Hname;
    [| by exists m].
  pose proof (Hplain name eq_refl) as Hb.
  destruct (m !! name) as [entry |] eqn:Hown.
  - eexists. split; [done |]. intros k.
    destruct (String.eqb_spec name k) as [<- | Hne].
    + by rewrite lookup_insert_eq, Hown.
    + by rewrite lookup_insert_ne.
  - destruct (String.eqb_spec name "__proto__") as [-> | _]; [done |].
    rewrite Hb, inheritedValue_clean.
    eexists. split; [done |]. intros k.
    destruct (String.eqb_spec name k) as [<- | Hne].
    + by rewrite lookup_insert_eq, Hown.
    + by rewrite lookup_insert_ne.
Qed.

(** Such rows leave [Object.prototype] clean, no exception is thrown, and
    the entry under every name is what the rows of that label make it. *)
Lemma processRows_plain bs : forall m,
  plainLabels bs ->
  exists m', processRows parseFloat (m, cleanPrototype) bs = Ok (m', cleanPrototype)
    /\ forall k, m' !! k
         = if existsb (labelled k) bs
           then Some (mergeRows parseFloat k (default WdEntry.empty (m !! k)) bs)
           else m !! k.
Proof.
  induction bs as [| row bs IH]; intros m Hplain; [by exists m |].
  cbn [processRows existsb].
  destruct (processRow_plain m row) as (m1 & -> & H1).
  { apply Hplain. by left. }
  destruct (IH m1) as (m' & Hrun & H').
  { intros row' Hin. apply Hplain. by right. }
  exists m'. split; [done |]. intros k.
  rewrite H', H1, mergeRows_cons.
  destruct (labelled k row) eqn:Hl; cbn [orb default]; [| done].
  destruct (existsb (labelled k) bs) eqn:Hbs; [done |].
  by rewrite mergeRows_unlabelled.
Qed.

Lemma processWikidataResults_plain bs :
  plainLabels bs ->
  exists m,
    processWikidataResults parseFloat bs = Ok m
    /\ processRows parseFloat (∅, cleanPrototype) bs = Ok (m, cleanPrototype)
    /\ forall k, entryFromRows parseFloat k bs (m !! k).
Proof.
  intros Hplain. destruct (processRows_plain bs ∅ Hplain) as (m & Hrun & Hm).
  exists m. unfold processWikidataResults. rewrite Hrun.
  split; [done |]. split; [done |]. intros k.
  rewrite Hm, lookup_empty. apply mergeRows_entry.
Qed.

End Rows.

(** X1: when [processWikidataResults] returns, its result has no entry
    under a member of [Object.prototype], and under any name that is not
    reserved it has an entry exactly when some row carries that name as a
    non-empty label; rows without a label leave no trace. *)
Theorem wikidata_entry_per_label (parseFloat : string -> float)
    (bs : list Binding.t) (m : gmap string WdEntry.t)
    (Hrun : processWikidataResults parseFloat bs = Ok m) :
  (forall k, builtinMember k = true -> m !! k = None)
  /\ (forall k, reserved k = false ->
        (is_Some (m !! k)
         <-> exists row, row ∈ bs /\ Js.truthy_str (Binding.itemLabel row) = Some k)).
Proof.
  split.
  - intros k Hk. apply processWikidataResults_run in Hrun as [proto Hrun].
    by apply (processRows_builtin parseFloat _ _ _ _ Hrun Hk).
  - intros k Hk. by destruct (processWikidataResults_entry parseFloat _ _ _ Hrun Hk).
Qed.

(** X2: under a name that is not reserved, each text field of the entry is
    the first non-empty value that the rows of that label give for it, in
    row order; later values never replace it, and the field is absent when
    no row gives one. *)
Theorem wikidata_first_value_wins (parseFloat : string -> float)
    (bs : list Binding.t) (m : gmap string WdEntry.t) (k : string)
    (Hrun : processWikidataResults parseFloat bs = Ok m)
    (Hk : reserved k = false) :
  m !! k ≫= WdEntry.coatOfArms = head (rowValues Binding.coatOfArms k bs)
  /\ m !! k ≫= WdEntry.photo = head (rowValues Binding.photo k bs)
  /\ m !! k ≫= WdEntry.postalCode = head (rowValues Binding.postalCode k bs)
  /\ m !! k ≫= WdEntry.officialWebsite = head (rowValues Binding.website k bs)
  /\ m !! k ≫= WdEntry.licensePlate = head (rowValues Binding.licensePlate k bs).
Proof.
  destruct (processWikidataResults_entry parseFloat _ _ _ Hrun Hk)
    as (_ & H1 & H2 & H3 & H4 & H5 & _).
  by repeat split.
Qed.

(** X3: under a name that is not reserved, the sister cities of the entry
    hold no duplicate, and they are exactly the non-empty sister-city labels
    of the rows of that label. *)
Theorem wikidata_sister_cities_distinct (parseFloat : string -> float)
    (bs : list Binding.t) (m : gmap string WdEntry.t) (k : string)
    (Hrun : processWikidataResults parseFloat bs = Ok m)
    (Hk : reserved k = false) :
  let cities := default [] (WdEntry.sisterCities <$> m !! k) in
  NoDup cities
  /\ forall sc, sc ∈ cities <-> sc ∈ rowValues Binding.sisterCityLabel k bs.
Proof.
  by destruct (processWikidataResults_entry parseFloat _ _ _ Hrun Hk)
    as (_ & _ & _ & _ & _ & _ & _ & H).
Qed.

(** X4: under a name that is not reserved, the elevation of the entry is
    the first elevation literal of its rows that parses to a number other
    than [0] and [NaN]; when there is none, it is the last literal's number:
    a stored [0] or [NaN] is overwritten by every later row that has an
    elevation. *)
Theorem wikidata_elevation_settles (parseFloat : string -> float)
    (bs : list Binding.t) (m : gmap string WdEntry.t) (k : string)
    (Hrun : processWikidataResults parseFloat bs = Ok m)
    (Hk : reserved k = false) :
  let parsed := parseFloat <$> rowValues Binding.elevation k bs in
  m !! k ≫= WdEntry.elevation
  = match find Js.truthy_num parsed with
    | Some x => Some x
    | None => last parsed
    end.
Proof.
  by destruct (processWikidataResults_entry parseFloat _ _ _ Hrun Hk)
    as (_ & _ & _ & _ & _ & _ & H & _).
Qed.

(** X5: processing the same row twice in a row is the same as processing
    it once. *)
Theorem processRow_repeated (parseFloat : string -> float)
    (st : gmap string WdEntry.t * prototype) (row : Binding.t) :
  match processRow parseFloat st row with
  | Ok st' => processRow parseFloat st' row
  | Throw => Throw
  end
  = processRow parseFloat st row.
Proof.
  destruct (processRow parseFloat st row) as [st' |] eqn:Hrow; [| done].
  by apply (processRow_again parseFloat st).
Qed.

(** X19: [processWikidataResults] throws only on a row labelled with a
    member of [Object.prototype]: when no row carries such a label it
    returns, no property is set on [Object.prototype], and under every name
    the entry is what the rows of that label make it. *)
Theorem wikidata_plain_labels_never_throw (parseFloat : string -> float)
    (bs : list Binding.t)
    (Hplain : forall row, row ∈ bs ->
       forall name, Js.truthy_str (Binding.itemLabel row) = Some name ->
         builtinMember name = false) :
  exists m,
    processWikidataResults parseFloat bs = Ok m
    /\ processRows parseFloat (∅, cleanPrototype) bs = Ok (m, cleanPrototype)
    /\ forall k, entryFromRows parseFloat k bs (m !! k).
Proof. by apply processWikidataResults_plain. Qed.

End WikidataFacts.

(** ** The enrichment run *)

Module EnrichFacts.

Import Net Enrich.
Local Open Scope list_scope.

Section Run.

Variable net : network.

Lemma fetchWikipediaSummary_run title log :
  fetchWikipediaSummary net title log
  = (Ok (summaryOf (wikipedia net log title)), log ++ fetchEvents title).
Proof.
  unfold fetchWikipediaSummary, try_catch, bind, fetchSummaryPage, summaryOf, fetchEvents.
  destruct (wikipedia net log title) as [| [] [data |]]; reflexivity.
Qed.

Lemma tryAlternate_run alt e count miss log :
  tryAlternate net alt e count miss log
  = (Ok (match summaryOf (wikipedia net log alt) with
         | Some w => (assignAlternate w e, S count, pred miss)
         | None => (e, count, miss)
         end),
     log ++ fetchEvents alt ++ [Sleep 50]).
Proof.
  unfold tryAlternate, bind. rewrite fetchWikipediaSummary_run.
  unfold sleep, emit, ret. by rewrite <- app_assoc.
Qed.

Lemma matchWikidata_wikidataMatch wikidataMap loc e :
  matchWikidata wikidataMap loc e
  = match wikidataMatch wikidataMap loc with
    | Some w => assignWikidata w e
    | None => e
    end.
Proof.
  unfold matchWikidata, wikidataMatch.
  destruct (wikidataMap !! Row.name loc) as [w |];
    cbn [Js.isSome negb andb]; [done |].
  destruct (Location.type_is (Row.type loc) "zupanija"); [| done].
  by destruct (wikidataMap !! _).
Qed.

Lemma assignSummary_stores wiki e : assignSummary wiki e = assignAlternate wiki e.
Proof. unfold assignSummary, assignAlternate. by destruct (_ && _). Qed.

Lemma type_opcina_not_grad ty :
  Location.type_is ty "opcina" = true -> Location.type_is ty "grad" = false.
Proof.
  destruct ty as [t |]; cbn; [| done].
  intros H%String.eqb_eq. by subst.
Qed.

Section Iteration.

Variable wikidataMap : gmap string WdEntry.t.
Variables zupanije gradovi opcine : list Row.t.

Abbreviation stored_entry := (entryFor net wikidataMap zupanije gradovi opcine).
Abbreviation loop := (forEach net wikidataMap zupanije gradovi opcine).

Lemma processLocation_run st loc log :
  exists count miss,
    processLocation net wikidataMap zupanije gradovi opcine st loc log
    = (Ok {| enrichment := <[Row.slug loc := stored_entry log loc]> (enrichment st);
             wikiCount := count; wikiMiss := miss |},
       log ++ locationEvents net log loc).
Proof.
  unfold processLocation, entryFor, locationEvents, resolvedSummary, firstSummary,
    alternateTitle, bind.
  rewrite fetchWikipediaSummary_run, matchWikidata_wikidataMatch.
  destruct (summaryOf (wikipedia net log (Location.getWikiTitle loc))) as [w |].
  - rewrite assignSummary_stores. stored.
  - destruct (Location.type_is (Row.type loc) "opcina") eqn:Hop.
    + rewrite tryAlternate_run, (type_opcina_not_grad _ Hop). cbn [andb].
      destruct (summaryOf _) as [w2 |]; stored.
    + unfold ret at 1.
      assert (Entry.description
                (match wikidataMatch wikidataMap loc with
                 | Some w => assignWikidata w Entry.fresh
                 | None => Entry.fresh
                 end) = None) as Hd
        by (by destruct (wikidataMatch wikidataMap loc)).
      rewrite Hd. cbn [Js.truthy_str Js.isSome negb].
      destruct (Location.type_is (Row.type loc) "grad"); cbn [andb].
      * rewrite tryAlternate_run. destruct (summaryOf _) as [w2 |]; stored.
      * stored.
Qed.

Lemma forEach_cons st loc rest log :
  exists count miss,
    loop st (loc :: rest) log
    = loop {| enrichment := <[Row.slug loc := stored_entry log loc]> (enrichment st);
              wikiCount := count; wikiMiss := miss |}
        rest (log ++ locationEvents net log loc).
Proof.
  destruct (processLocation_run st loc log) as (count & miss & H).
  exists count, miss. cbn [forEach]. unfold bind. by rewrite H.
Qed.

Lemma forEach_app pre post st log :
  loop st (pre ++ post) log
  = match loop st pre log with
    | (Ok st', log') => loop st' post log'
    | (Throw, log') => (Throw, log')
    end.
Proof.
  revert st log. induction pre as [| loc pre IH]; intros st log; [done |].
  cbn [forEach app]. unfold bind.
  destruct (processLocation _ _ _ _ _ st loc log) as [[st1 |] log1]; [apply IH | done].
Qed.

Lemma wiki_sequential_app l1 l2 :
  wiki_sequential l1 -> wiki_sequential l2 -> wiki_sequential (l1 ++ l2).
Proof. induction 1; cbn; eauto using wiki_sequential. Qed.

Lemma wiki_sequential_others l :
  Forall (fun e => is_wikipedia_event e = false) l -> wiki_sequential l.
Proof. induction 1; eauto using wiki_sequential. Qed.

Lemma fetchEvents_sequential title : wiki_sequential (fetchEvents title).
Proof. apply ws_fetch, ws_nil. Qed.

Lemma locationEvents_sequential log loc : wiki_sequential (locationEvents net log loc).
Proof.
  unfold locationEvents.
  repeat apply wiki_sequential_app; try apply fetchEvents_sequential.
  - destruct (firstSummary net log loc); [constructor |].
    destruct (alternateTitle loc); [| constructor].
    apply wiki_sequential_app; [apply fetchEvents_sequential |].
    by repeat constructor.
  - by repeat constructor.
Qed.

Lemma loopEvents_sequential locs : forall log,
  wiki_sequential (loopEvents net log locs).
Proof.
  induction locs as [| loc rest IH]; intros log; cbn [loopEvents]; [constructor |].
  apply wiki_sequential_app; [apply locationEvents_sequential | apply IH].
Qed.

(** The loop ends normally, having run one iteration per location. *)
Lemma forEach_total locs : forall st log,
  exists st', loop st locs log = (Ok st', log ++ loopEvents net log locs).
Proof.
  induction locs as [| loc rest IH]; intros st log.
  - exists st. cbn [loopEvents]. by rewrite app_nil_r.
  - destruct (forEach_cons st loc rest log) as (c & m & ->).
    edestruct IH as (st' & ->). exists st'. cbn [loopEvents]. by rewrite app_assoc.
Qed.

(** Slugs the loop does not meet keep their entries. *)
Lemma forEach_lookup_other locs : forall st log st' log' k,
  loop st locs log = (Ok st', log') ->
  k ∉ map Row.slug locs ->
  enrichment st' !! k = enrichment st !! k.
Proof.
  induction locs as [| loc rest IH]; intros st log st' log' k Hrun Hk.
  - by injection Hrun as <- _.
  - destruct (forEach_cons st loc rest log) as (c & m & H). rewrite H in Hrun.
    cbn [map] in Hk. apply not_elem_of_cons in Hk as [Hne Hk].
    rewrite (IH _ _ _ _ _ Hrun Hk). cbn. by rewrite lookup_insert_ne.
Qed.

(** The entry under a slug is the one stored by the last location with that
    slug, from the log that iteration started with. *)
Lemma forEach_lookup_last pre loc post st log st' log' :
  loop st (pre ++ loc :: post) log = (Ok st', log') ->
  Row.slug loc ∉ map Row.slug post ->
  enrichment st' !! Row.slug loc = Some (stored_entry (snd (loop st pre log)) loc).
Proof.
  intros Hrun Hpost. rewrite forEach_app in Hrun.
  destruct (forEach_total pre st log) as (st1 & Hpre).
  rewrite Hpre in Hrun |- *. cbn [snd].
  destruct (forEach_cons st1 loc post (log ++ loopEvents net log pre)) as (c & m & H).
  rewrite H in Hrun.
  rewrite (forEach_lookup_other _ _ _ _ _ _ Hrun Hpost). cbn.
  by rewrite lookup_insert_eq.
Qed.

(** The slugs of the result are those it had and those of the locations. *)
Lemma forEach_dom locs : forall st log st' log',
  loop st locs log = (Ok st', log') ->
  dom (enrichment st') = dom (enrichment st) ∪ list_to_set (map Row.slug locs).
Proof.
  induction locs as [| loc rest IH]; intros st log st' log' Hrun.
  - injection Hrun as <- _. cbn. by rewrite (right_id_L ∅ (∪)).
  - destruct (forEach_cons st loc rest log) as (c & m & H). rewrite H in Hrun.
    rewrite (IH _ _ _ _ Hrun). cbn. rewrite dom_insert_L.
    by rewrite (comm_L (∪) {[Row.slug loc]}), (assoc_L (∪)).
Qed.

(** Every entry was there before or was stored for one of the locations. *)
Lemma forEach_entries locs : forall st log st' log' k e,
  loop st locs log = (Ok st', log') ->
  enrichment st' !! k = Some e ->
  enrichment st !! k = Some e
  \/ exists loc log0, loc ∈ locs /\ Row.slug loc = k /\ e = stored_entry log0 loc.
Proof.
  induction locs as [| loc rest IH]; intros st log st' log' k e Hrun He.
  - injection Hrun as <- _. by left.
  - destruct (forEach_cons st loc rest log) as (c & m & H). rewrite H in Hrun.
    destruct (IH _ _ _ _ _ _ Hrun He) as [Hin | (loc' & log0 & Hin & Hk & ->)].
    + cbn in Hin. destruct (decide (Row.slug loc = k)) as [<- | Hne].
      * rewrite lookup_insert_eq in Hin. injection Hin as <-.
        right. exists loc, log. split; [left | done].
      * rewrite lookup_insert_ne in Hin by done. by left.
    + right. exists loc', log0. split; [by right | done].
Qed.

End Iteration.

Section Main.

Variable parseFloat : string -> float.

Lemma fetchSparql_run label log :
  fetchSparql net label log
  = (Ok {| pending := SparqlReq label; settles := bindingsOf (sparql net log label) |},
     log ++ [Start (SparqlReq label)]).
Proof.
  unfold fetchSparql, bindingsOf.
  by destruct (sparql net log label) as [| [] [bindings |]].
Qed.

(** The map step 1 leaves: that of the rows when the four queries succeed
    and the rows are processed without an exception, the empty one
    otherwise. *)
Lemma wikidataStep_value log :
  fst (wikidataStep parseFloat net log)
  = Ok (match sparqlOutcomes net log with
        | [Ok settlements; Ok counties; Ok cities; Ok municipalities] =>
            match processWikidataResults parseFloat
                    (settlements ++ counties ++ cities ++ municipalities) with
            | Ok byName => byName
            | Throw => ∅
            end
        | _ => ∅
        end).
Proof.
  unfold wikidataStep, try_catch, fetchWikidata, bind, sparqlOutcomes.
  rewrite !fetchSparql_run. unfold await_all, ret, complete.
  cbn [find settles is_throw app].
  destruct (bindingsOf (sparql net log "settlements")) as [b1 |]; cbn [is_throw fst];
    [| done].
  destruct (bindingsOf (sparql net _ "counties")) as [b2 |]; cbn [is_throw fst];
    [| done].
  destruct (bindingsOf (sparql net _ "cities")) as [b3 |]; cbn [is_throw fst];
    [| done].
  destruct (bindingsOf (sparql net _ "municipalities")) as [b4 |]; cbn [is_throw fst];
    [| done].
  cbn [values settles concat]. rewrite app_nil_r.
  by destruct (processWikidataResults _ _).
Qed.

Lemma wikidataStep_map log wikidataMap log0 :
  wikidataStep parseFloat net log = (Ok wikidataMap, log0) ->
  wikidataMap
  = match sparqlOutcomes net log with
    | [Ok settlements; Ok counties; Ok cities; Ok municipalities] =>
        match processWikidataResults parseFloat
                (settlements ++ counties ++ cities ++ municipalities) with
        | Ok byName => byName
        | Throw => ∅
        end
    | _ => ∅
    end.
Proof.
  intros H. pose proof (wikidataStep_value log) as Hv. rewrite H in Hv.
  cbn [fst] in Hv. congruence.
Qed.

(** Step 1 never throws: it issues the four requests, and a failure leaves
    the map empty. *)
Lemma wikidataStep_run log :
  exists wikidataMap evs,
    wikidataStep parseFloat net log
    = (Ok wikidataMap, log ++ map (fun l => Start (SparqlReq l)) sparqlLabels ++ evs)
    /\ Forall (fun e => is_wikipedia_event e = false) evs
    /\ (fst (fetchWikidata parseFloat net log) = Throw -> wikidataMap = ∅).
Proof.
  unfold wikidataStep, try_catch, fetchWikidata, bind.
  rewrite !fetchSparql_run. unfold await_all, ret, complete.
  cbn [fst snd].
  destruct (find _ _) as [p |] eqn:Hfind; cbn [fst snd].
  - apply find_some in Hfind as [Hin _].
    eexists ∅, [Settle (pending p)]. rewrite <- !app_assoc. split; [done |].
    split; [| done]. constructor; [| constructor].
    cbn in Hin. by destruct Hin as [<- | [<- | [<- | [<- | []]]]].
  - destruct (processWikidataResults _ _) as [byName |]; cbn [fst snd];
      eexists _, _; rewrite <- !app_assoc; (split; [done |]);
      (split; [by repeat constructor | done]).
Qed.

Lemma main_run zupanije gradovi opcine :
  exists wikidataMap log0 st log,
    wikidataStep parseFloat net [] = (Ok wikidataMap, log0)
    /\ forEach net wikidataMap zupanije gradovi opcine start
         (Location.allLocations zupanije gradovi opcine) log0 = (Ok st, log)
    /\ main parseFloat net zupanije gradovi opcine [] = (Ok (cleanUp <$> enrichment st), log).
Proof.
  destruct (wikidataStep_run []) as (wikidataMap & evs & Hstep & _).
  edestruct (forEach_total wikidataMap zupanije gradovi opcine
               (Location.allLocations zupanije gradovi opcine) start)
    as (st & Hloop).
  eexists wikidataMap, _, st, _. split; [exact Hstep |]. split; [exact Hloop |].
  unfold main, bind. by rewrite Hstep, Hloop.
Qed.

End Main.

End Run.

(** *** Requests in flight *)

Lemma filter_remove_first r open :
  List.filter is_wikipedia open = [] ->
  List.filter is_wikipedia (remove_first r open) = [].
Proof.
  induction open as [| x open IH]; cbn; [done |].
  destruct (is_wikipedia x) eqn:Hx; [done |]. intros H.
  destruct (decide (x = r)); [done |]. cbn. rewrite Hx. by apply IH.
Qed.

Lemma remove_first_last r open :
  is_wikipedia r = true ->
  List.filter is_wikipedia open = [] ->
  remove_first r (open ++ [r]) = open.
Proof.
  intros Hr. induction open as [| x open IH]; cbn.
  - by destruct (decide (r = r)).
  - destruct (is_wikipedia x) eqn:Hx; [done |]. intros H.
    destruct (decide (x = r)) as [-> | _]; [congruence |]. by rewrite IH.
Qed.

Lemma sequential_in_flight l :
  wiki_sequential l -> forall open n,
  List.filter is_wikipedia open = [] ->
  length (List.filter is_wikipedia (in_flight_from open (take n l))) <= 1.
Proof.
  induction 1 as [| e l He _ IH | title l _ IH]; intros open n Hopen.
  - rewrite take_nil. cbn. rewrite Hopen. cbn. lia.
  - destruct n as [| n]; cbn; [rewrite Hopen; cbn; lia |].
    destruct e as [r | r |]; cbn in He; apply IH.
    + rewrite List.filter_app. cbn. by rewrite He, Hopen.
    + by apply filter_remove_first.
    + done.
  - destruct n as [| [| n]]; cbn.
    + rewrite Hopen. cbn. lia.
    + rewrite List.filter_app, Hopen. cbn. lia.
    + apply IH. by rewrite remove_first_last.
Qed.

(** *** The lookup chains *)

Lemma wikipediaTitles_app l1 l2 :
  wikipediaTitles (l1 ++ l2) = wikipediaTitles l1 ++ wikipediaTitles l2.
Proof. apply omap_app. Qed.

(** C1 (as amended): an iteration runs two independent chains.  Wikidata:
    the exact name, and for a county only, when that found nothing, the
    name without ' županija' and 'Grad ' ([wikidataMatch]).  Wikipedia: the
    title of [getWikiTitle] is always requested, whatever Wikidata gave; the
    alternate title '<name> (općina)' of a municipality or '<name> (grad)' of
    a city is requested next, and only when the first summary was [null]
    ([titlesTried], [resolvedSummary]).  The stored entry merges the results
    of both chains. *)
Theorem lookup_chains (net : network) (wikidataMap : gmap string WdEntry.t)
    (zupanije gradovi opcine : list Row.t) (st : progress) (loc : Row.t)
    (log : list event) :
  exists st' log',
    processLocation net wikidataMap zupanije gradovi opcine st loc log = (Ok st', log')
    /\ wikipediaTitles log' = wikipediaTitles log ++ titlesTried net log loc
    /\ enrichment st' !! Row.slug loc
       = Some (mergedEntry (wikidataMatch wikidataMap loc) (resolvedSummary net log loc)
                 (Conclusions.generateConclusions loc (Row.type loc)
                    zupanije gradovi opcine)).
Proof.
  destruct (processLocation_run net wikidataMap zupanije gradovi opcine st loc log)
    as (count & miss & H).
  eexists _, _. split; [exact H |]. split.
  - rewrite wikipediaTitles_app. f_equal.
    unfold locationEvents, titlesTried, fetchEvents.
    destruct (firstSummary net log loc); [done |].
    by destruct (alternateTitle loc).
  - cbn. by rewrite lookup_insert_eq.
Qed.

(** *** One entry per location *)

Lemma allLocations_length zupanije gradovi opcine :
  length (Location.allLocations zupanije gradovi opcine)
  = length zupanije + length gradovi + length opcine.
Proof. unfold Location.allLocations. rewrite !length_app, !length_map. lia. Qed.

(** C4: when the slugs are distinct the written object has exactly one
    entry per location, under its slug.  The fields of that entry are those
    of the location's Wikidata match and of the Wikipedia summary resolved
    for it when its iteration ran: description and thumbnail are those of
    the summary; coatOfArms, photo, postalCode, officialWebsite and
    licensePlate are those of the match, each absent when empty; the
    elevation is that of the match; the sister cities are those of the
    match, absent when there are none; the conclusions are those generated
    for the location.  The Wikidata map in which the match is looked up is
    empty when one of the four queries failed; when they all succeeded it
    holds, under each name, what the rows of that label give, provided no
    label is a member of [Object.prototype], and otherwise it does so under
    the names that are not reserved, or is empty. *)
Theorem enrichment_one_entry_per_location (parseFloat : string -> float)
    (net : network) (zupanije gradovi opcine : list Row.t)
    (Hslugs : NoDup (map Row.slug (Location.allLocations zupanije gradovi opcine))) :
  exists wikidataMap log0 written log,
    wikidataStep parseFloat net [] = (Ok wikidataMap, log0)
    /\ main parseFloat net zupanije gradovi opcine [] = (Ok written, log)
    /\ size written = length zupanije + length gradovi + length opcine
    /\ (forall k, is_Some (written !! k)
                  <-> k ∈ map Row.slug (Location.allLocations zupanije gradovi opcine))
    /\ (forall pre loc post,
          Location.allLocations zupanije gradovi opcine = pre ++ loc :: post ->
          let wd := wikidataMatch wikidataMap loc in
          let wiki := resolvedSummary net
                        (snd (forEach net wikidataMap zupanije gradovi opcine
                                start pre log0))
                        loc in
          let concl := Conclusions.generateConclusions loc (Row.type loc)
                         zupanije gradovi opcine in
          written !! Row.slug loc = Some (cleanUp (mergedEntry wd wiki concl))
          /\ exists e,
               written !! Row.slug loc = Some e
               /\ Entry.description e = Js.truthy_str (wiki ≫= Summary.description)
               /\ Entry.thumbnail e = Js.truthy_str (wiki ≫= Summary.thumbnail)
               /\ Entry.coatOfArms e = Js.truthy_str (wd ≫= WdEntry.coatOfArms)
               /\ Entry.photo e = Js.truthy_str (wd ≫= WdEntry.photo)
               /\ Entry.postalCode e = Js.truthy_str (wd ≫= WdEntry.postalCode)
               /\ Entry.elevation e = wd ≫= WdEntry.elevation
               /\ Entry.officialWebsite e = Js.truthy_str (wd ≫= WdEntry.officialWebsite)
               /\ Entry.licensePlate e = Js.truthy_str (wd ≫= WdEntry.licensePlate)
               /\ Entry.sisterCities e
                  = match wd with
                    | Some w =>
                        match WdEntry.sisterCities w with
                        | [] => None
                        | cities => Some cities
                        end
                    | None => None
                    end
               /\ Entry.conclusions e = Some concl)
    /\ (In Throw (sparqlOutcomes net []) -> wikidataMap = ∅)
    /\ (forall settlements counties cities municipalities,
          sparqlOutcomes net []
          = [Ok settlements; Ok counties; Ok cities; Ok municipalities] ->
          let rows := settlements ++ counties ++ cities ++ municipalities in
          (plainLabels rows ->
           forall k, entryFromRows parseFloat k rows (wikidataMap !! k))
          /\ (wikidataMap = ∅
              \/ forall k, reserved k = false ->
                   entryFromRows parseFloat k rows (wikidataMap !! k))).
Proof.
  destruct (main_run net parseFloat zupanije gradovi opcine)
    as (wikidataMap & log0 & st & log & Hstep & Hloop & Hmain).
  exists wikidataMap, log0, (cleanUp <$> enrichment st), log.
  pose proof (forEach_dom _ _ _ _ _ _ _ _ _ _ Hloop) as Hdom.
  change (dom (enrichment start)) with (∅ : gset string) in Hdom.
  rewrite (left_id_L ∅ (∪)) in Hdom.
  pose proof (wikidataStep_map net parseFloat _ _ _ Hstep) as Hval.
  split; [done |]. split; [done |]. split; [| split; [| split; [| split]]].
  - rewrite map_size_fmap, <- size_dom, Hdom, size_list_to_set by done.
    by rewrite length_map, allLocations_length.
  - intros k. rewrite lookup_fmap, fmap_is_Some, <- elem_of_dom, Hdom.
    apply elem_of_list_to_set.
  - intros pre loc post Hsplit. cbn zeta. rewrite Hsplit in Hloop, Hslugs.
    assert ((cleanUp <$> enrichment st) !! Row.slug loc
            = Some (cleanUp
                      (mergedEntry (wikidataMatch wikidataMap loc)
                         (resolvedSummary net
                            (snd (forEach net wikidataMap zupanije gradovi opcine
                                    start pre log0)) loc)
                         (Conclusions.generateConclusions loc (Row.type loc)
                            zupanije gradovi opcine)))) as Hentry.
    { rewrite lookup_fmap.
      rewrite (forEach_lookup_last _ _ _ _ _ _ _ _ _ _ _ _ Hloop); [done |].
      rewrite map_app in Hslugs. apply NoDup_app in Hslugs as (_ & _ & Hpost).
      cbn in Hpost. by apply NoDup_cons in Hpost as [? _]. }
    split; [exact Hentry |]. eexists. split; [exact Hentry |].
    cbn [cleanUp mergedEntry Entry.description Entry.thumbnail Entry.coatOfArms
         Entry.photo Entry.postalCode Entry.elevation Entry.officialWebsite
         Entry.licensePlate Entry.sisterCities Entry.conclusions].
    repeat (split; [reflexivity |]). split.
    + destruct (wikidataMatch wikidataMap loc) as [w |]; [| done].
      by destruct (WdEntry.sisterCities w).
    + pose proof (ConclusionsFacts.generateConclusions_nonempty loc (Row.type loc)
                    zupanije gradovi opcine).
      by destruct (Conclusions.generateConclusions _ _ _ _ _).
  - intros Hin. rewrite Hval.
    destruct (sparqlOutcomes net [])
      as [| [a |] [| [b |] [| [c |] [| [d |] [| ? ?]]]]]; try done.
    cbn in Hin. by destruct Hin as [? | [? | [? | [? | []]]]].
  - intros a b c d Ho. cbn zeta. rewrite Ho in Hval. split.
    + intros Hplain.
      destruct (WikidataFacts.processWikidataResults_plain parseFloat _ Hplain)
        as (m & Hm & _ & Hent).
      rewrite Hm in Hval. by rewrite Hval.
    + destruct (processWikidataResults parseFloat _) as [m |] eqn:Hm;
        [right | by left].
      intros k Hk. rewrite Hval.
      by eapply WikidataFacts.processWikidataResults_entry.
Qed.

(** *** Failures *)

(** C6: [fetchWikipediaSummary] never throws, and gives [null] on a network
    error and on a response that is not OK; and when the Wikidata step fails,
    [main] still ends normally and the written object has, for every
    location, an entry with conclusions and none of the Wikidata fields. *)
Theorem lookups_never_abort (parseFloat : string -> float) (net : network)
    (zupanije gradovi opcine : list Row.t)
    (Hfail : fst (fetchWikidata parseFloat net []) = Throw) :
  (forall title log,
     exists r, fst (fetchWikipediaSummary net title log) = Ok r
       /\ (wikipedia net log title = NetworkError -> r = None)
       /\ (forall json, wikipedia net log title = Response false json -> r = None))
  /\ exists written log,
       main parseFloat net zupanije gradovi opcine [] = (Ok written, log)
       /\ forall loc, loc ∈ Location.allLocations zupanije gradovi opcine ->
            exists e, written !! Row.slug loc = Some e
              /\ (exists c, Entry.conclusions e = Some c /\ c <> [])
              /\ Entry.coatOfArms e = None
              /\ Entry.photo e = None
              /\ Entry.postalCode e = None
              /\ Entry.elevation e = None
              /\ Entry.officialWebsite e = None
              /\ Entry.licensePlate e = None
              /\ Entry.sisterCities e = None.
Proof.
  split.
  - intros title log. rewrite fetchWikipediaSummary_run. eexists. split; [done |].
    split; [by intros -> | by intros json ->].
  - destruct (main_run net parseFloat zupanije gradovi opcine)
      as (wikidataMap & log0 & st & log & Hstep & Hloop & Hmain).
    destruct (wikidataStep_run net parseFloat []) as (m & evs & Hstep' & _ & Hempty).
    rewrite Hstep in Hstep'. injection Hstep' as -> _. rewrite (Hempty Hfail) in Hloop.
    exists (cleanUp <$> enrichment st), log. split; [done |].
    intros loc Hloc.
    assert (is_Some (enrichment st !! Row.slug loc)) as [e He].
    { apply elem_of_dom. rewrite (forEach_dom _ _ _ _ _ _ _ _ _ _ Hloop).
      apply elem_of_union_r, elem_of_list_to_set, list_elem_of_fmap. eauto. }
    exists (cleanUp e). split; [by rewrite lookup_fmap, He |].
    destruct (forEach_entries _ _ _ _ _ _ _ _ _ _ _ _ Hloop He)
      as [Hstart | (loc' & log1 & _ & _ & ->)]; [done |].
    unfold entryFor, wikidataMatch. rewrite lookup_empty.
    destruct (Location.type_is (Row.type loc') "zupanija");
      rewrite ?lookup_empty; cbn; (split; [| done]);
      destruct (Conclusions.generateConclusions _ _ _ _ _) eqn:Hc;
      try (by apply ConclusionsFacts.generateConclusions_nonempty in Hc);
      by eexists.
Qed.

(** *** Concurrency *)

(** C5 (as amended): the four Wikidata requests are issued one after the
    other before any of them settles, so that all four are in flight
    together.  The loop then runs once per location, in table order, and the
    Wikipedia summary requests are sequential: at no point of the run is more
    than one of them in flight. *)
Theorem wikipedia_requests_one_at_a_time (parseFloat : string -> float)
    (net : network) (zupanije gradovi opcine : list Row.t) :
  let log := snd (main parseFloat net zupanije gradovi opcine []) in
  let log0 := snd (wikidataStep parseFloat net []) in
  in_flight (take 4 log) = map SparqlReq sparqlLabels
  /\ log = log0 ++ loopEvents net log0 (Location.allLocations zupanije gradovi opcine)
  /\ forall n, length (List.filter is_wikipedia (in_flight (take n log))) <= 1.
Proof.
  cbn zeta.
  destruct (main_run net parseFloat zupanije gradovi opcine)
    as (wikidataMap & log0 & st & log & Hstep & Hloop & ->).
  destruct (forEach_total net wikidataMap zupanije gradovi opcine
              (Location.allLocations zupanije gradovi opcine) start log0)
    as (st' & Hloop').
  rewrite Hloop in Hloop'. injection Hloop' as -> ->. rewrite Hstep. cbn [snd].
  destruct (wikidataStep_run net parseFloat []) as (m & evs & Hstep' & Hevs & _).
  rewrite Hstep in Hstep'. injection Hstep' as <- ->.
  split; [done |]. split; [done |].
  intros n. apply sequential_in_flight; [| done].
  apply wiki_sequential_app; [| apply loopEvents_sequential].
  apply wiki_sequential_others. by repeat (constructor; [done |]).
Qed.

End EnrichFacts.

(** ** The small run, evaluated *)

Module DemoFacts.

Import Net Enrich Demo.
Local Open Scope list_scope.

(** C1, counterexample: in the run against [online] the first step of the
    chain, the exact lookup of 'Bol' in the Wikidata map, finds a match, and
    the last step is attempted all the same: the alternate title
    'Bol (općina)' is requested. *)
Lemma alternate_title_requested_after_wikidata_hit :
  exists wikidataMap log0 w,
    wikidataStep parseFloat0 online [] = (Ok wikidataMap, log0)
    /\ wikidataMap !! Row.name bol = Some w
    /\ In (Start (WikipediaReq "Bol (općina)"))
          (snd (main parseFloat0 online [zupanija] [split] [bol] [])).
Proof.
  eexists _, _, _. split; [reflexivity |]. split; [vm_compute; reflexivity |].
  vm_compute. tauto.
Qed.

(** C5, counterexample: after the first four events of a run, four requests
    are in flight at the same time. *)
Lemma four_requests_in_flight :
  in_flight (take 4 (snd (main parseFloat0 online [zupanija] [split] [bol] [])))
  = [SparqlReq "settlements"; SparqlReq "counties"; SparqlReq "cities";
     SparqlReq "municipalities"].
Proof. vm_compute. reflexivity. Qed.

(** C7, counterexample: the same location record and type, hence the same
    census statistics against the same fixed thresholds, yield different
    sentences when only the population of the county in the county table
    changes. *)
Lemma sentences_depend_on_county_table :
  let a := Conclusions.generateConclusions split (Some "grad") [zupanija] [] [] in
  let b := Conclusions.generateConclusions split (Some "grad") [zupanijaLarge] [] [] in
  a <> b /\ length a = 5 /\ length b = 4.
Proof. vm_compute. split; [discriminate | done]. Qed.

(** C4, witness: the three demo rows have distinct slugs; the run writes
    three entries, and that of 'bol' has the postal code, the coat of arms
    and the website of its Wikidata rows and the description of the page
    'Bol (općina)'. *)
Lemma enrichment_one_entry_per_location_witness :
  NoDup (map Row.slug (Location.allLocations [zupanija] [split] [bol]))
  /\ exists written log e,
       main parseFloat0 online [zupanija] [split] [bol] [] = (Ok written, log)
       /\ size written = 3
       /\ written !! "bol" = Some e
       /\ Entry.description e = Some "Članak Bol (općina)"
       /\ Entry.coatOfArms e = Some "http://commons.wikimedia.org/Bol_grb.svg"
       /\ Entry.postalCode e = Some "21420"
       /\ Entry.officialWebsite e = Some "https://www.opcinabol.hr"
       /\ Entry.photo e = None
       /\ Entry.sisterCities e = None.
Proof.
  assert (NoDup (map Row.slug (Location.allLocations [zupanija] [split] [bol]))) as H.
  { apply (bool_decide_unpack _). vm_compute. exact I. }
  split; [exact H |].
  destruct (EnrichFacts.enrichment_one_entry_per_location parseFloat0 online
              [zupanija] [split] [bol] H)
    as (wikidataMap & log0 & written & log & Hstep & Hmain & Hsize & _ & Hentry & _).
  destruct (Hentry [Location.with_type "zupanija" zupanija; split] bol [] eq_refl)
    as (_ & e & He & Hdesc & _ & Hcoa & Hphoto & Hpost & _ & Hweb & _ & Hsc & _).
  vm_compute in Hstep. injection Hstep as <- <-.
  exists written, log, e.
  split; [exact Hmain |]. split; [exact Hsize |]. split; [exact He |].
  split; [rewrite Hdesc; vm_compute; reflexivity |].
  split; [rewrite Hcoa; vm_compute; reflexivity |].
  split; [rewrite Hpost; vm_compute; reflexivity |].
  split; [rewrite Hweb; vm_compute; reflexivity |].
  split; [rewrite Hphoto; vm_compute; reflexivity |].
  rewrite Hsc. vm_compute. reflexivity.
Defined.

(** C6, witness: with nothing reachable the Wikidata step fails, and the run
    still writes an entry for 'bol'. *)
Lemma lookups_never_abort_witness :
  fst (fetchWikidata parseFloat0 offline []) = Throw
  /\ exists written log e,
       main parseFloat0 offline [zupanija] [split] [bol] [] = (Ok written, log)
       /\ written !! Row.slug bol = Some e
       /\ Entry.postalCode e = None
       /\ (exists c, Entry.conclusions e = Some c /\ c <> []).
Proof.
  assert (fst (fetchWikidata parseFloat0 offline []) = Throw) as H
    by (vm_compute; reflexivity).
  split; [exact H |].
  destruct (EnrichFacts.lookups_never_abort parseFloat0 offline [zupanija] [split] [bol] H)
    as (_ & written & log & Hmain & Hall).
  destruct (Hall bol) as (e & He & Hc & _ & _ & Hp & _).
  { apply list_elem_of_In. vm_compute. tauto. }
  exists written, log, e. repeat split; assumption.
Defined.

(** C7, witness: two records of Split that differ in slug, identifier,
    county identifier and gender shares, run against different tables, have
    the same sentences. *)
Lemma generateConclusions_inputs_witness :
  Conclusions.same_statistics split splitTwin
  /\ Conclusions.same_county (Conclusions.countyOf split [zupanija])
                             (Conclusions.countyOf splitTwin [zupanijaLarge; zupanijaTwin])
  /\ Conclusions.generateConclusions split (Some "grad") [zupanija] [] []
     = Conclusions.generateConclusions splitTwin (Some "grad")
         [zupanijaLarge; zupanijaTwin] [split] [bol].
Proof.
  assert (Conclusions.same_statistics split splitTwin) as Hs
    by (constructor; reflexivity).
  assert (Conclusions.same_county (Conclusions.countyOf split [zupanija])
            (Conclusions.countyOf splitTwin [zupanijaLarge; zupanijaTwin])) as Hc
    by (vm_compute; split; reflexivity).
  split; [exact Hs |]. split; [exact Hc |].
  exact (proj1 (ConclusionsFacts.generateConclusions_inputs split splitTwin (Some "grad")
                  [zupanija] [zupanijaLarge; zupanijaTwin] [] [split] [] [bol] Hs Hc)).
Defined.

End DemoFacts.

(** ** More on the enrichment run *)

Module RunFacts.

Import Net Enrich EnrichFacts.
Local Open Scope list_scope.

(** X6: step 1 is all or nothing, and always ends normally.  When the four
    queries all succeed and their rows are processed without an exception,
    the Wikidata map is built from the rows in the order settlements,
    counties, cities, municipalities; when any one query fails, or a row
    makes [processWikidataResults] throw, the map is empty, the rows of the
    others being discarded. *)
Theorem wikidata_all_or_nothing (parseFloat : string -> float) (net : network) :
  fst (wikidataStep parseFloat net [])
  = Ok (match sparqlOutcomes net [] with
        | [Ok settlements; Ok counties; Ok cities; Ok municipalities] =>
            match processWikidataResults parseFloat
                    (settlements ++ counties ++ cities ++ municipalities) with
            | Ok byName => byName
            | Throw => ∅
            end
        | _ => ∅
        end).
Proof. apply wikidataStep_value. Qed.

(** *** The two counters *)

Lemma processLocation_counters net wikidataMap zupanije gradovi opcine st loc log :
  match fst (processLocation net wikidataMap zupanije gradovi opcine st loc log) with
  | Ok st' =>
      if Js.isSome (resolvedSummary net log loc)
      then wikiCount st' = S (wikiCount st) /\ wikiMiss st' = wikiMiss st
      else wikiCount st' = wikiCount st /\ wikiMiss st' = S (wikiMiss st)
  | Throw => False
  end.
Proof.
  unfold processLocation, resolvedSummary, firstSummary, alternateTitle, bind.
  rewrite fetchWikipediaSummary_run, matchWikidata_wikidataMatch.
  destruct (summaryOf (wikipedia net log (Location.getWikiTitle loc))) as [w |].
  - unfold ret, sleep, emit. by cbn.
  - destruct (Location.type_is (Row.type loc) "opcina") eqn:Hop.
    + rewrite tryAlternate_run, (type_opcina_not_grad _ Hop). cbn [andb].
      destruct (summaryOf _) as [w2 |]; unfold ret, sleep, emit; by cbn.
    + unfold ret at 1.
      assert (Entry.description
                (match wikidataMatch wikidataMap loc with
                 | Some w => assignWikidata w Entry.fresh
                 | None => Entry.fresh
                 end) = None) as Hd
        by (by destruct (wikidataMatch wikidataMap loc)).
      rewrite Hd. cbn [Js.truthy_str Js.isSome negb].
      destruct (Location.type_is (Row.type loc) "grad"); cbn [andb].
      * rewrite tryAlternate_run.
        destruct (summaryOf _) as [w2 |]; unfold ret, sleep, emit; by cbn.
      * unfold ret, sleep, emit. by cbn.
Qed.

(** One iteration, with its counters. *)
Lemma processLocation_step net wikidataMap zupanije gradovi opcine st loc log :
  exists st',
    processLocation net wikidataMap zupanije gradovi opcine st loc log
    = (Ok st', log ++ locationEvents net log loc)
    /\ enrichment st'
       = <[Row.slug loc := entryFor net wikidataMap zupanije gradovi opcine log loc]>
           (enrichment st)
    /\ wikiCount st'
       = wikiCount st + (if Js.isSome (resolvedSummary net log loc) then 1 else 0)
    /\ wikiCount st' + wikiMiss st' = S (wikiCount st + wikiMiss st).
Proof.
  pose proof (processLocation_counters net wikidataMap zupanije gradovi opcine st loc log)
    as Hc.
  destruct (processLocation_run net wikidataMap zupanije gradovi opcine st loc log)
    as (count & miss & Hrun).
  rewrite Hrun in Hc |- *. cbn [fst wikiCount wikiMiss] in Hc.
  eexists. split; [done |]. split; [done |]. cbn [wikiCount wikiMiss].
  destruct (Js.isSome _); lia.
Qed.

Lemma forEach_counters net wikidataMap zupanije gradovi opcine locs : forall st log,
  exists st',
    forEach net wikidataMap zupanije gradovi opcine st locs log
    = (Ok st', log ++ loopEvents net log locs)
    /\ wikiCount st' = wikiCount st + hits net log locs
    /\ wikiCount st' + wikiMiss st' = wikiCount st + wikiMiss st + length locs.
Proof.
  induction locs as [| loc rest IH]; intros st log.
  - exists st. cbn [loopEvents hits length]. rewrite app_nil_r. split; [done |]. lia.
  - destruct (processLocation_step net wikidataMap zupanije gradovi opcine st loc log)
      as (st1 & Hrun & _ & Hcount & Hsum).
    destruct (IH st1 (log ++ locationEvents net log loc)) as (st' & Hloop & Hc & Hs).
    exists st'. cbn [forEach loopEvents hits length]. unfold bind.
    rewrite Hrun, Hloop, app_assoc. split; [done |]. lia.
Qed.

(** X7: when the loop is over, [wikiCount] is the number of locations whose
    summary resolved, directly or under the alternate title, and [wikiMiss]
    the number of the others: the two add up to the number of locations. A
    miss that the alternate title makes good is counted as a hit only. *)
Theorem hit_and_miss_counters (net : network) (wikidataMap : gmap string WdEntry.t)
    (zupanije gradovi opcine locs : list Row.t) (log : list event) :
  exists st',
    forEach net wikidataMap zupanije gradovi opcine start locs log
    = (Ok st', log ++ loopEvents net log locs)
    /\ wikiCount st' = hits net log locs
    /\ wikiCount st' + wikiMiss st' = length locs.
Proof.
  destruct (forEach_counters net wikidataMap zupanije gradovi opcine locs start log)
    as (st' & Hloop & Hc & Hs).
  exists st'. cbn in Hc, Hs. by repeat split.
Qed.

(** *** Wikipedia does not depend on Wikidata *)

Lemma forEach_wikipediaPart net wd1 wd2 zupanije gradovi opcine locs :
  forall st1 st2 log,
  wikipediaPart <$> enrichment st1 = wikipediaPart <$> enrichment st2 ->
  wikiCount st1 = wikiCount st2 ->
  wikiMiss st1 = wikiMiss st2 ->
  exists st1' st2' log',
    forEach net wd1 zupanije gradovi opcine st1 locs log = (Ok st1', log')
    /\ forEach net wd2 zupanije gradovi opcine st2 locs log = (Ok st2', log')
    /\ wikipediaPart <$> enrichment st1' = wikipediaPart <$> enrichment st2'
    /\ wikiCount st1' = wikiCount st2'
    /\ wikiMiss st1' = wikiMiss st2'.
Proof.
  induction locs as [| loc rest IH]; intros st1 st2 log He Hc Hm.
  - by exists st1, st2, log.
  - destruct (processLocation_step net wd1 zupanije gradovi opcine st1 loc log)
      as (n1 & Hrun1 & He1 & Hc1 & Hs1).
    destruct (processLocation_step net wd2 zupanije gradovi opcine st2 loc log)
      as (n2 & Hrun2 & He2 & Hc2 & Hs2).
    destruct (IH n1 n2 (log ++ locationEvents net log loc))
      as (st1' & st2' & log' & H1 & H2 & H); [| lia | lia |].
    { by rewrite He1, He2, !fmap_insert, He. }
    exists st1', st2', log'. cbn [forEach]. unfold bind. by rewrite Hrun1, Hrun2.
Qed.

(** X8: what Wikidata returned has no influence on the Wikipedia side of a
    run: with two different Wikidata maps the loop makes the same requests and
    sleeps, stores the same descriptions, thumbnails and conclusions under
    the same slugs, and ends with the same counters. *)
Theorem wikipedia_independent_of_wikidata (net : network)
    (wd1 wd2 : gmap string WdEntry.t)
    (zupanije gradovi opcine locs : list Row.t) (log : list event) :
  exists st1 st2 log',
    forEach net wd1 zupanije gradovi opcine start locs log = (Ok st1, log')
    /\ forEach net wd2 zupanije gradovi opcine start locs log = (Ok st2, log')
    /\ wikipediaPart <$> enrichment st1 = wikipediaPart <$> enrichment st2
    /\ wikiCount st1 = wikiCount st2
    /\ wikiMiss st1 = wikiMiss st2.
Proof. by apply forEach_wikipediaPart. Qed.

(** *** What is written *)

Lemma truthy_str_nonempty o : Js.truthy_str o <> Some "".
Proof. by destruct o as [[| c t] |]. Qed.

Lemma nonEmpty_nonempty l : nonEmpty l <> Some [].
Proof. by destruct l as [[| x l] |]. Qed.

(** X9: in the written object no key holds an empty string or an empty
    array, and every entry has between one and five conclusions. *)
Theorem written_entries_compact (parseFloat : string -> float) (net : network)
    (zupanije gradovi opcine : list Row.t) :
  exists written log,
    main parseFloat net zupanije gradovi opcine [] = (Ok written, log)
    /\ forall k e, written !! k = Some e ->
         (exists c, Entry.conclusions e = Some c /\ 1 <= length c <= 5)
         /\ Entry.description e <> Some ""
         /\ Entry.thumbnail e <> Some ""
         /\ Entry.coatOfArms e <> Some ""
         /\ Entry.photo e <> Some ""
         /\ Entry.postalCode e <> Some ""
         /\ Entry.officialWebsite e <> Some ""
         /\ Entry.licensePlate e <> Some ""
         /\ Entry.sisterCities e <> Some [].
Proof.
  destruct (main_run net parseFloat zupanije gradovi opcine)
    as (wikidataMap & log0 & st & log & Hstep & Hloop & Hmain).
  exists (cleanUp <$> enrichment st), log. split; [done |].
  intros k e. rewrite lookup_fmap.
  destruct (enrichment st !! k) as [e0 |] eqn:He0; [| done]. intros [= <-].
  split; [| repeat split; first [apply truthy_str_nonempty | apply nonEmpty_nonempty]].
  destruct (forEach_entries _ _ _ _ _ _ _ _ _ _ _ _ Hloop He0)
    as [Hstart | (loc & log1 & _ & _ & ->)]; [done |].
  cbn.
  pose proof (ConclusionsFacts.generateConclusions_nonempty loc (Row.type loc)
                zupanije gradovi opcine) as Hne.
  assert (length (Conclusions.generateConclusions loc (Row.type loc)
                    zupanije gradovi opcine) <= 5) as Hle
    by (unfold Conclusions.generateConclusions; rewrite length_take; lia).
  destruct (Conclusions.generateConclusions _ _ _ _ _) as [| x c]; [done |].
  eexists. split; [done |]. cbn in Hle |- *. lia.
Qed.

(** X10: locations that share a slug share one entry, and it is the one of
    the last of them in table order: the written object has as many entries
    as there are distinct slugs, and the entry under a slug is the clean-up
    of what the last location with that slug stored. *)
Theorem last_location_with_a_slug_wins (parseFloat : string -> float)
    (net : network) (zupanije gradovi opcine : list Row.t) :
  exists wikidataMap log0 written log,
    wikidataStep parseFloat net [] = (Ok wikidataMap, log0)
    /\ main parseFloat net zupanije gradovi opcine [] = (Ok written, log)
    /\ size written
       = size (list_to_set (map Row.slug (Location.allLocations zupanije gradovi opcine))
                 : gset string)
    /\ (forall pre loc post,
          Location.allLocations zupanije gradovi opcine = pre ++ loc :: post ->
          Row.slug loc ∉ map Row.slug post ->
          written !! Row.slug loc
          = Some (cleanUp
                    (entryFor net wikidataMap zupanije gradovi opcine
                       (snd (forEach net wikidataMap zupanije gradovi opcine
                               start pre log0))
                       loc))).
Proof.
  destruct (main_run net parseFloat zupanije gradovi opcine)
    as (wikidataMap & log0 & st & log & Hstep & Hloop & Hmain).
  exists wikidataMap, log0, (cleanUp <$> enrichment st), log.
  split; [done |]. split; [done |]. split.
  - rewrite map_size_fmap, <- size_dom, (forEach_dom _ _ _ _ _ _ _ _ _ _ Hloop).
    change (dom (enrichment start)) with (∅ : gset string).
    by rewrite (left_id_L ∅ (∪)).
  - intros pre loc post Hsplit Hpost. rewrite Hsplit in Hloop.
    rewrite lookup_fmap.
    by rewrite (forEach_lookup_last _ _ _ _ _ _ _ _ _ _ _ _ Hloop Hpost).
Qed.

(** *** Requests and sleeps *)

Lemma slept_app l1 l2 : slept (l1 ++ l2) = slept l1 + slept l2.
Proof.
  induction l1 as [| e l1 IH]; [done |].
  destruct e; cbn [app slept]; rewrite IH; lia.
Qed.

Lemma locationEvents_budget net log loc :
  let requests := length (wikipediaTitles (locationEvents net log loc)) in
  1 <= requests <= 2
  /\ slept (locationEvents net log loc) = 100 + 50 * (requests - 1).
Proof.
  unfold locationEvents, fetchEvents.
  destruct (firstSummary net log loc); [cbn; lia |].
  destruct (alternateTitle loc); cbn; lia.
Qed.

Lemma loopEvents_budget net locs : forall log,
  let requests := length (wikipediaTitles (loopEvents net log locs)) in
  length locs <= requests <= 2 * length locs
  /\ slept (loopEvents net log locs) = 100 * length locs + 50 * (requests - length locs).
Proof.
  induction locs as [| loc rest IH]; intros log; [cbn; lia |].
  cbn zeta in *. cbn [loopEvents length].
  rewrite wikipediaTitles_app, length_app, slept_app.
  pose proof (locationEvents_budget net log loc) as H1. cbn zeta in H1.
  pose proof (IH (log ++ locationEvents net log loc)) as H2. lia.
Qed.

(** Step 1 logs requests of its own only, and never sleeps. *)
Lemma wikidataStep_quiet parseFloat net log :
  exists evs,
    snd (wikidataStep parseFloat net log) = log ++ evs
    /\ wikipediaTitles evs = [] /\ slept evs = 0.
Proof.
  unfold wikidataStep, try_catch, fetchWikidata, bind.
  rewrite !fetchSparql_run. unfold await_all, ret, complete.
  destruct (find _ _) as [p |] eqn:Hfind; cbn [fst snd].
  - apply find_some in Hfind as [Hin _].
    eexists. rewrite <- !app_assoc. split; [done |].
    cbn in Hin. by destruct Hin as [<- | [<- | [<- | [<- | []]]]].
  - destruct (processWikidataResults _ _) as [byName |]; cbn [fst snd];
      eexists; rewrite <- !app_assoc; (split; [done |]); done.
Qed.

(** X11: a run makes between one and two Wikipedia requests per location,
    and sleeps 100 ms per location and 50 ms more for every alternate title
    it tried, whatever the network answers. *)
Theorem request_and_sleep_budget (parseFloat : string -> float) (net : network)
    (zupanije gradovi opcine : list Row.t) :
  let log := snd (main parseFloat net zupanije gradovi opcine []) in
  let n := length zupanije + length gradovi + length opcine in
  let requests := length (wikipediaTitles log) in
  n <= requests <= 2 * n
  /\ slept log = 100 * n + 50 * (requests - n).
Proof.
  cbn zeta.
  destruct (main_run net parseFloat zupanije gradovi opcine)
    as (wikidataMap & log0 & st & log & Hstep & Hloop & ->).
  destruct (forEach_total net wikidataMap zupanije gradovi opcine
              (Location.allLocations zupanije gradovi opcine) start log0)
    as (st' & Hloop').
  rewrite Hloop in Hloop'. injection Hloop' as -> ->. cbn [snd].
  destruct (wikidataStep_quiet parseFloat net []) as (evs & Hevs & Htitles & Hslept).
  rewrite Hstep in Hevs. cbn in Hevs. subst log0.
  rewrite wikipediaTitles_app, length_app, slept_app, Htitles, Hslept.
  pose proof (loopEvents_budget net (Location.allLocations zupanije gradovi opcine) evs)
    as H. cbn zeta in H. rewrite allLocations_length in H. cbn [length]. lia.
Qed.

(** X12: [fetchWikipediaSummary] makes exactly one request, which has
    settled when it returns, and its value is decided by that response alone:
    the summary when the response is OK and its body can be read, an empty
    extract or thumbnail source counting as [null]; [null] in every other
    case, an unreadable body included. *)
Theorem fetchWikipediaSummary_result (net : network) (title : string)
    (log : list event) :
  fetchWikipediaSummary net title log
  = (Ok (match wikipedia net log title with
         | Response true (Some data) =>
             Some (Summary.mk (Js.truthy_str (extract data))
                              (Js.truthy_str (thumbnail_source data)))
         | Response true None => None
         | Response false _ => None
         | NetworkError => None
         end),
     log ++ [Start (WikipediaReq title); Settle (WikipediaReq title)]).
Proof.
  unfold fetchWikipediaSummary, try_catch, bind, fetchSummaryPage.
  by destruct (wikipedia net log title) as [| [] [data |]].
Qed.

(** *** The conclusions do not depend on the network *)

Lemma forEach_conclusions net1 net2 wd1 wd2 zupanije gradovi opcine locs :
  forall st1 st2 log1 log2,
  Entry.conclusions <$> enrichment st1 = Entry.conclusions <$> enrichment st2 ->
  exists st1' st2' log1' log2',
    forEach net1 wd1 zupanije gradovi opcine st1 locs log1 = (Ok st1', log1')
    /\ forEach net2 wd2 zupanije gradovi opcine st2 locs log2 = (Ok st2', log2')
    /\ Entry.conclusions <$> enrichment st1' = Entry.conclusions <$> enrichment st2'.
Proof.
  induction locs as [| loc rest IH]; intros st1 st2 log1 log2 He.
  - by exists st1, st2, log1, log2.
  - destruct (processLocation_step net1 wd1 zupanije gradovi opcine st1 loc log1)
      as (n1 & Hrun1 & He1 & _).
    destruct (processLocation_step net2 wd2 zupanije gradovi opcine st2 loc log2)
      as (n2 & Hrun2 & He2 & _).
    destruct (IH n1 n2 (log1 ++ locationEvents net1 log1 loc)
                (log2 ++ locationEvents net2 log2 loc))
      as (st1' & st2' & log1' & log2' & H1 & H2 & H).
    { by rewrite He1, He2, !fmap_insert, He. }
    exists st1', st2', log1', log2'. cbn [forEach]. unfold bind.
    by rewrite Hrun1, Hrun2.
Qed.

(** X18: the conclusions written under each slug are the same whatever the
    network does: two runs over the same tables, against any two networks,
    write the same conclusions under the same slugs. *)
Theorem conclusions_independent_of_network (parseFloat1 parseFloat2 : string -> float)
    (net1 net2 : network) (zupanije gradovi opcine : list Row.t) :
  exists written1 written2 log1 log2,
    main parseFloat1 net1 zupanije gradovi opcine [] = (Ok written1, log1)
    /\ main parseFloat2 net2 zupanije gradovi opcine [] = (Ok written2, log2)
    /\ Entry.conclusions <$> written1 = Entry.conclusions <$> written2.
Proof.
  destruct (main_run net1 parseFloat1 zupanije gradovi opcine)
    as (wd1 & l1 & st1 & log1 & _ & Hloop1 & Hmain1).
  destruct (main_run net2 parseFloat2 zupanije gradovi opcine)
    as (wd2 & l2 & st2 & log2 & _ & Hloop2 & Hmain2).
  destruct (forEach_conclusions net1 net2 wd1 wd2 zupanije gradovi opcine
              (Location.allLocations zupanije gradovi opcine) start start l1 l2)
    as (st1' & st2' & log1' & log2' & H1 & H2 & H); [done |].
  rewrite Hloop1 in H1. rewrite Hloop2 in H2.
  injection H1 as <- <-. injection H2 as <- <-.
  exists (cleanUp <$> enrichment st1), (cleanUp <$> enrichment st2), log1, log2.
  split; [done |]. split; [done |].
  rewrite <- !map_fmap_compose.
  change (Entry.conclusions ∘ cleanUp) with (nonEmpty ∘ Entry.conclusions).
  by rewrite !map_fmap_compose, H.
Qed.

End RunFacts.

(** ** More on the indexes and on the conclusions *)

Module MoreFacts.

Import Row Location Conclusions.
Local Open Scope list_scope.

(** X13: the two indexes line up: once the counties are skipped, the search
    index and the comparison index list the same places in the same order,
    with the same name, slug, population and county name. *)
Theorem indexes_line_up (zupanije gradovi opcine : list Row.t) :
  let out := SearchIndex.run zupanije gradovi opcine in
  map SearchIndex.searchKey (drop (length zupanije) (SearchIndex.search_index_json out))
  = map SearchIndex.compareKey (SearchIndex.locations_compare_json out).
Proof.
  cbn zeta. unfold SearchIndex.run, SearchIndex.search_index_json,
    SearchIndex.locations_compare_json, SearchIndex.searchIndex, SearchIndex.compareData.
  rewrite <- (length_map SearchIndex.zupanijaEntry zupanije), drop_app_length.
  by rewrite !map_app, !map_map.
Qed.

Lemma densityComparison_length type density : length (densityComparison type density) <= 1.
Proof. unfold densityComparison. repeat case_match; cbn; lia. Qed.

Lemma ageStructure_length avgAge : length (ageStructure avgAge) <= 1.
Proof. unfold ageStructure. repeat case_match; cbn; lia. Qed.

Lemma youthShare_length age014 : length (youthShare age014) <= 1.
Proof. unfold youthShare. repeat case_match; cbn; lia. Qed.

Lemma elderlyShare_length age65 : length (elderlyShare age65) <= 1.
Proof. unfold elderlyShare. repeat case_match; cbn; lia. Qed.

Lemma education_length uni : length (education uni) <= 1.
Proof. unfold education. repeat case_match; cbn; lia. Qed.

Lemma countyComparison_length location type zupanije :
  length (countyComparison location type zupanije) <= 1.
Proof. unfold countyComparison. repeat case_match; cbn; lia. Qed.

Lemma sizeContext_length location type : length (sizeContext location type) <= 1.
Proof.
  unfold sizeContext.
  destruct (type_is type "opcina") eqn:Hop.
  - rewrite (EnrichFacts.type_opcina_not_grad _ Hop), app_nil_r.
    repeat case_match; cbn; lia.
  - cbn [app]. repeat case_match; cbn; lia.
Qed.

(** X14: the limit of five never cuts the sentences on population change,
    density, average age, youth and elderly shares: they always open the
    result, in that order.  Only the education, county-share and size
    sentences can be cut, and at most eight sentences are ever pushed. *)
Theorem five_sentence_limit (location : Row.t) (type : option string)
    (zupanije gradovi opcine : list Row.t) :
  let kept := changeVerdict (change_pct location)
              ++ densityComparison type (density location)
              ++ ageStructure (avg_age location)
              ++ youthShare (age_0_14_pct location)
              ++ elderlyShare (age_65_plus_pct location) in
  let all := pushed location type zupanije gradovi opcine in
  kept `prefix_of` generateConclusions location type zupanije gradovi opcine
  /\ generateConclusions location type zupanije gradovi opcine `prefix_of` all
  /\ length all <= 8.
Proof.
  cbn zeta. unfold generateConclusions, pushed.
  pose proof (ConclusionsFacts.changeVerdict_length (change_pct location)).
  pose proof (densityComparison_length type (density location)).
  pose proof (ageStructure_length (avg_age location)).
  pose proof (youthShare_length (age_0_14_pct location)).
  pose proof (elderlyShare_length (age_65_plus_pct location)).
  pose proof (education_length (education_university_pct location)).
  pose proof (countyComparison_length location type zupanije).
  pose proof (sizeContext_length location type).
  split; [| split].
  - rewrite !(app_assoc _ _ (education _ ++ _)).
    rewrite take_app, take_ge by (rewrite !length_app; lia).
    by eexists.
  - apply prefix_take.
  - rewrite !length_app. lia.
Qed.

(** X15: for a county the sentences are those on population change, average
    age, youth and elderly shares and education, none of them cut; density,
    county share and size are never mentioned, and no table is consulted. *)
Theorem county_conclusions (location : Row.t) (type : option string)
    (zupanije gradovi opcine : list Row.t)
    (Htype : type_is type "zupanija" = true) :
  generateConclusions location type zupanije gradovi opcine
  = changeVerdict (change_pct location)
    ++ ageStructure (avg_age location)
    ++ youthShare (age_0_14_pct location)
    ++ elderlyShare (age_65_plus_pct location)
    ++ education (education_university_pct location).
Proof.
  unfold generateConclusions, pushed.
  rewrite ConclusionsFacts.countyComparison_countyOf.
  unfold densityComparison, sizeContext. rewrite Htype. cbn [negb].
  assert (type_is type "opcina" = false /\ type_is type "grad" = false) as [-> ->].
  { destruct type as [t |]; [| done]. cbn in Htype |- *.
    apply String.eqb_eq in Htype as ->. done. }
  cbn [app]. rewrite !app_nil_r.
  pose proof (ConclusionsFacts.changeVerdict_length (change_pct location)).
  pose proof (ageStructure_length (avg_age location)).
  pose proof (youthShare_length (age_0_14_pct location)).
  pose proof (elderlyShare_length (age_65_plus_pct location)).
  pose proof (education_length (education_university_pct location)).
  apply take_ge. rewrite !length_app. lia.
Qed.

End MoreFacts.

(** ** The bracket scan of parseTS *)

Module ParseTSFacts.

Import ParseTS.

Lemma append_cons c (a b : string) : (String c a ++ b = String c (a ++ b))%string.
Proof. reflexivity. Qed.

Lemma append_empty (b : string) : (EmptyString ++ b = b)%string.
Proof. reflexivity. Qed.

Lemma substring_prefix (a b : string) :
  String.substring 0 (String.length a) (a ++ b) = a.
Proof.
  induction a as [| c a IH]; [rewrite append_empty; by destruct b |].
  rewrite append_cons. cbn [String.length String.substring]. by rewrite IH.
Qed.

Lemma length_append (a b : string) :
  String.length (a ++ b) = String.length a + String.length b.
Proof.
  induction a as [| c a IH]; [done |].
  rewrite append_cons. cbn [String.length]. by rewrite IH.
Qed.

Lemma append_assoc (a b c : string) : ((a ++ b) ++ c = a ++ (b ++ c))%string.
Proof.
  induction a as [| x a IH]; [done |]. rewrite !append_cons. by rewrite IH.
Qed.

Ltac norm_append :=
  repeat first [rewrite append_assoc | rewrite append_cons | rewrite append_empty].

Lemma scan_open depth rest :
  scan depth (String "[" rest) = S <$> scan (depth + 1) rest.
Proof. reflexivity. Qed.

Lemma scan_close depth rest :
  scan depth (String "]" rest)
  = if (depth - 1 =? 0)%Z then Some 1 else S <$> scan (depth - 1) rest.
Proof. reflexivity. Qed.

Lemma scan_other c depth rest :
  Ascii.eqb c "[" = false -> Ascii.eqb c "]" = false ->
  scan depth (String c rest) = S <$> scan depth rest.
Proof. intros Ho Hc. cbn [scan]. by rewrite Ho, Hc. Qed.

(** Inside brackets the scan walks over balanced text without stopping. *)
Lemma scan_balanced a : balanced a -> forall depth tail,
  (1 <= depth)%Z ->
  scan depth (a ++ tail) = (fun n => String.length a + n) <$> scan depth tail.
Proof.
  induction 1 as [| c s Ho Hc _ IH | a b _ IHa _ IHb]; intros depth tail Hd.
  - rewrite append_empty. by destruct (scan depth tail).
  - rewrite append_cons, scan_other, IH by done. cbn [String.length].
    by destruct (scan depth tail).
  - norm_append. rewrite scan_open, IHa, scan_close by lia.
    replace (depth + 1 - 1 =? 0)%Z with false by lia.
    replace (depth + 1 - 1)%Z with depth by lia.
    rewrite IHb by done. destruct (scan depth tail) as [n |]; [| done].
    cbn [fmap option_fmap option_map String.length]. f_equal.
    rewrite !length_append. cbn [String.length]. lia.
Qed.

(** X16: when the text at [start] is a bracketed array whose inner brackets
    match, the scan cuts out exactly that array, whatever follows it. *)
Theorem arrayStr_balanced (body tail : string) (Hbody : balanced body) :
  arrayStr ("[" ++ body ++ "]" ++ tail) = ("[" ++ body ++ "]")%string.
Proof.
  unfold arrayStr. norm_append.
  rewrite scan_open, scan_balanced by (done || lia).
  rewrite scan_close. change (0 + 1 - 1 =? 0)%Z with true.
  cbn [fmap option_fmap option_map].
  replace (S (String.length body + 1))
    with (String.length (String "[" (body ++ "]")))
    by (cbn [String.length]; rewrite length_append; cbn [String.length]; lia).
  rewrite <- (substring_prefix (String "[" (body ++ "]")) tail) at 2.
  by norm_append.
Qed.

Lemma scan_bound rest : forall depth n,
  scan depth rest = Some n ->
  1 <= n <= String.length rest
  /\ String.get (n - 1) rest = Some "]"%char.
Proof.
  induction rest as [| c rest IH]; intros depth n; [done |].
  assert (forall d, S <$> scan d rest = Some n ->
            1 <= n <= String.length (String c rest)
            /\ String.get (n - 1) (String c rest) = Some "]"%char) as Hrec.
  { intros d. destruct (scan d rest) as [m |] eqn:Hm; [| done]. intros [= <-].
    destruct (IH _ _ Hm) as [Hb Hg]. cbn [String.length]. split; [lia |].
    destruct m as [| m]; [lia |]. cbn [Nat.sub String.get] in Hg |- *.
    by rewrite Nat.sub_0_r in Hg. }
  cbn [scan]. destruct (Ascii.eqb_spec c "]") as [-> | Hc]; [| apply Hrec].
  destruct (_ =? 0)%Z; [| apply Hrec].
  intros [= <-]. cbn. split; [lia | done].
Qed.

Lemma substring_is_prefix n (s : string) :
  String.prefix (String.substring 0 n s) s = true.
Proof.
  revert n. induction s as [| c s IH]; intros [| n]; try done.
  cbn [String.substring String.prefix].
  destruct (ascii_dec c c); [apply IH | done].
Qed.

(** X17: whatever the text, what the scan cuts out is a prefix of it, and is
    either empty (no bracket brought the depth back to zero, and [end]
    stayed [start]) or ends with a closing bracket. *)
Theorem arrayStr_prefix (rest : string) :
  String.prefix (arrayStr rest) rest = true
  /\ (arrayStr rest = EmptyString
      \/ exists n, 1 <= n <= String.length rest
           /\ arrayStr rest = String.substring 0 n rest
           /\ String.get (n - 1) rest = Some "]"%char).
Proof.
  unfold arrayStr. destruct (scan 0 rest) as [n |] eqn:Hn.
  - split; [apply substring_is_prefix |]. right. exists n.
    destruct (scan_bound _ _ _ Hn) as [Hb Hg]. split; [lia |]. by split.
  - split; [by destruct rest | by left].
Qed.

End ParseTSFacts.

(** ** Further evaluations *)

Module MoreDemoFacts.

Import Demo.
Local Open Scope list_scope.

(** X15, witness: the demo county, typed as [allLocations] types it. *)
Lemma county_conclusions_witness :
  Location.type_is (Some "zupanija") "zupanija" = true
  /\ Conclusions.generateConclusions zupanija (Some "zupanija") [zupanijaLarge] [split] [bol]
     = ["Stanovništvo bilježi značajan pad od -6.9% u desetljeću 2011.–2021."].
Proof.
  assert (Location.type_is (Some "zupanija") "zupanija" = true) as H by reflexivity.
  split; [exact H |].
  rewrite (MoreFacts.county_conclusions zupanija (Some "zupanija")
             [zupanijaLarge] [split] [bol] H).
  vm_compute. reflexivity.
Defined.

(** The rows of [demoRows] are processed without an exception, the one
    labelled 'toString' leaving no entry. *)
Lemma demoRows_run : processWikidataResults parseElevation demoRows = Net.Ok demoMap.
Proof. vm_compute. reflexivity. Qed.

(** X1, witness: 'Bol' has an entry, 'toString' has none. *)
Lemma wikidata_entry_per_label_witness :
  processWikidataResults parseElevation demoRows = Net.Ok demoMap
  /\ reserved "Bol" = false
  /\ demoMap !! "toString" = None
  /\ is_Some (demoMap !! "Bol").
Proof.
  assert (reserved "Bol" = false) as Hk by reflexivity.
  split; [exact demoRows_run |]. split; [exact Hk |].
  destruct (WikidataFacts.wikidata_entry_per_label parseElevation demoRows demoMap
              demoRows_run) as [Hbuiltin Hentry].
  split; [by apply Hbuiltin |].
  apply (Hentry "Bol" Hk). exists bolBinding. split; [| done].
  apply elem_of_cons. right. by left.
Defined.

(** X2, witness: the postal code of 'Bol' is that of its first row. *)
Lemma wikidata_first_value_wins_witness :
  processWikidataResults parseElevation demoRows = Net.Ok demoMap
  /\ reserved "Bol" = false
  /\ rowValues Binding.postalCode "Bol" demoRows = ["21420"; "21421"]
  /\ demoMap !! "Bol" ≫= WdEntry.postalCode = Some "21420".
Proof.
  assert (reserved "Bol" = false) as Hk by reflexivity.
  split; [exact demoRows_run |]. split; [exact Hk |]. split; [reflexivity |].
  destruct (WikidataFacts.wikidata_first_value_wins parseElevation demoRows demoMap
              "Bol" demoRows_run Hk) as (_ & _ & Hpost & _).
  rewrite Hpost. reflexivity.
Defined.

(** X3, witness: 'Postira' is named by two rows and stored once. *)
Lemma wikidata_sister_cities_distinct_witness :
  processWikidataResults parseElevation demoRows = Net.Ok demoMap
  /\ reserved "Bol" = false
  /\ rowValues Binding.sisterCityLabel "Bol" demoRows = ["Postira"; "Postira"]
  /\ NoDup (default [] (WdEntry.sisterCities <$> demoMap !! "Bol"))
  /\ "Postira" ∈ default [] (WdEntry.sisterCities <$> demoMap !! "Bol").
Proof.
  assert (reserved "Bol" = false) as Hk by reflexivity.
  split; [exact demoRows_run |]. split; [exact Hk |]. split; [reflexivity |].
  destruct (WikidataFacts.wikidata_sister_cities_distinct parseElevation demoRows demoMap
              "Bol" demoRows_run Hk) as [Hnd Hel].
  split; [exact Hnd |]. apply Hel. by left.
Defined.

(** X4, witness: the elevation 0 of the second row of 'Bol' is overwritten
    by the 11 of the third. *)
Lemma wikidata_elevation_settles_witness :
  processWikidataResults parseElevation demoRows = Net.Ok demoMap
  /\ reserved "Bol" = false
  /\ rowValues Binding.elevation "Bol" demoRows = ["0"; "11"]
  /\ demoMap !! "Bol" ≫= WdEntry.elevation = Some 11%float.
Proof.
  assert (reserved "Bol" = false) as Hk by reflexivity.
  split; [exact demoRows_run |]. split; [exact Hk |]. split; [reflexivity |].
  rewrite (WikidataFacts.wikidata_elevation_settles parseElevation demoRows demoMap
             "Bol" demoRows_run Hk).
  reflexivity.
Defined.

(** X19, witness: the two rows of the small run carry plain labels. *)
Lemma wikidata_plain_labels_never_throw_witness :
  plainLabels [countyBinding; bolBinding]
  /\ exists m,
       processWikidataResults parseFloat0 [countyBinding; bolBinding] = Net.Ok m
       /\ entryFromRows parseFloat0 "Bol" [countyBinding; bolBinding] (m !! "Bol").
Proof.
  assert (plainLabels [countyBinding; bolBinding]) as Hplain.
  { intros row Hin name Hname.
    apply elem_of_cons in Hin as [-> | Hin];
      [| apply elem_of_cons in Hin as [-> | Hin]; [| by apply elem_of_nil in Hin]];
      injection Hname as <-; reflexivity. }
  split; [exact Hplain |].
  destruct (WikidataFacts.wikidata_plain_labels_never_throw parseFloat0
              [countyBinding; bolBinding] Hplain) as (m & Hrun & _ & Hentry).
  exists m. split; [exact Hrun | apply Hentry].
Defined.

(** X16, witness: an array of one array, followed by a semicolon. *)
Lemma arrayStr_balanced_witness :
  ParseTS.balanced "[1]" /\ ParseTS.arrayStr "[[1]];" = "[[1]]".
Proof.
  assert (ParseTS.balanced "[1]") as H.
  { apply (ParseTS.balanced_nested "1" "").
    - by apply ParseTS.balanced_char; [| | constructor].
    - constructor. }
  split; [exact H |]. exact (ParseTSFacts.arrayStr_balanced "[1]" ";" H).
Defined.

End MoreDemoFacts.
